(** * Resumable upload endpoint (TUS) of the transfer service

    A shallow embedding of [src/app/api/tus/[[...path]]/route.ts]: the four
    protocol handlers [POST] (create), [PATCH] (append), [HEAD] (status) and
    [DELETE] (cancel), together with the helpers they call, over an explicit
    world made of the upload directory and the two database tables the
    handlers touch.

    Conventions of the embedding.
    - A JavaScript number that the handlers compute is an integer or [NaN];
      it is a [Z], and [option Z] where [NaN] (or JSON [null]) can occur.
      The embedding is exact for the safe integers ([isSafeInteger]): the
      rounding of larger numbers, the exponent notation of [String] from
      10^21 on and the range of a BIGINT column are not modelled, and a
      property that reads a declared length back states that range.
    - The upload directory is a map from the names of its entries, all
      regular files, to their contents. [filePath] and [metadataPath] give
      the entries of an upload; they are what [join(UPLOAD_DIR, ...)] names
      when the identifier is plain ([plain_name], [path_join_plain]), as the
      identifiers that POST issues are. The handlers are embedded for such
      identifiers: with dot segments or separators in the identifier, [join]
      names other places ([path_join]).
    - [JSON.stringify] followed by [JSON.parse] is the identity on the side
      file record; a file holding raw bytes is never valid JSON.
    - A handler is a function from the world before the call to the answer
      and the world after it, and [run] composes whole calls: each call has
      answered before the next one starts. The handlers take no lock, so
      this is one of the schedules only; [PATCH_begin] and [PATCH_resume]
      give PATCH in two parts, split where it awaits the body, and
      [overlapped] is a schedule where two calls overlap.
    - What the platform chooses ([uuidv4], the clock, how the disk answers
      an append: [disk]) is an explicit argument of the handler. An append
      that throws may have written a part of the chunk. *)

From Stdlib Require Import ZArith Ascii String List.
From Stdlib.Strings Require Import Byte.
From stdpp Require Import base option gmap strings list fin_maps pretty.

Local Open Scope string_scope.
Local Open Scope Z_scope.

(** ** Numbers and strings of the JavaScript runtime *)

(** White space that [parseInt] and [String.prototype.trim] skip. A header
    value is a byte string, one [ascii] per code unit; of the white space of
    the language, these are the code units below 256 (160 is the no-break
    space). *)
Definition isWhiteSpace (a : ascii) : bool :=
  match nat_of_ascii a with
  | 9%nat | 10%nat | 11%nat | 12%nat | 13%nat | 32%nat | 160%nat => true
  | _ => false
  end.

Fixpoint trimStart (s : string) : string :=
  match s with
  | String a r => if isWhiteSpace a then trimStart r else s
  | EmptyString => EmptyString
  end.

Definition trim (s : string) : string :=
  String.rev (trimStart (String.rev (trimStart s))).

Definition digit (a : ascii) : option Z :=
  let n := Z.of_nat (nat_of_ascii a) in
  if (48 <=? n) && (n <=? 57) then Some (n - 48) else None.

(** The longest prefix of decimal digits, as a number; [acc] is the value
    read so far, [None] while no digit has been seen. *)
Fixpoint digits (s : string) (acc : option Z) : option Z :=
  match s with
  | String a r =>
      match digit a with
      | Some d => digits r (Some (10 * default 0 acc + d))
      | None => acc
      end
  | EmptyString => acc
  end.

(** [parseInt(s, 10)]: [None] is [NaN]. The value is the integer that the
    digits denote (a number holds it exactly when it is a safe integer). *)
Definition parseInt (s : string) : option Z :=
  match trimStart s with
  | String "-"%char r => Z.opp <$> digits r None
  | String "+"%char r => digits r None
  | r => digits r None
  end.

(** [String(n)] for an integer: its decimal digits (what [String] gives
    below 10^21). *)
Definition String_ (n : Z) : string := pretty n.

(** [String(x)] where [x] may be [null]. *)
Definition String_nullable (x : option Z) : string :=
  match x with Some n => String_ n | None => "null" end.

(** [h || d] for a header value: [null] and the empty string are falsy. *)
Definition or_default (h : option string) (d : string) : string :=
  match h with
  | Some s => if decide (s = "") then d else s
  | None => d
  end.

(** [s.split(sep)] for a separator of one character. *)
Fixpoint split (sep : ascii) (s : string) : list string :=
  match s with
  | EmptyString => [EmptyString]
  | String a r =>
      if Ascii.eqb a sep then EmptyString :: split sep r
      else match split sep r with
           | h :: t => String a h :: t
           | [] => [String a EmptyString]
           end
  end.

(** Every character of [s] passes [f]. *)
Fixpoint all_chars (f : ascii -> bool) (s : string) : bool :=
  match s with
  | EmptyString => true
  | String a r => f a && all_chars f r
  end.

(** [s.includes(sub)]. *)
Definition includes (s sub : string) : bool :=
  match String.index 0 sub s with Some _ => true | None => false end.

(** ** The data the handlers persist *)

Definition bytes := list Byte.byte.

Definition byteLength (b : bytes) : Z := Z.of_nat (List.length b).

(** The side file [<uploadId>.json]. *)
Module meta.
Record t := mk {
  id : string;
  metadata : gmap string string;
  size : option Z;          (* [None]: NaN was stringified as null *)
  offset : Z;
  creation_date : Z
}.
Definition with_offset (m : t) (o : Z) : t :=
  mk (id m) (metadata m) (size m) o (creation_date m).
End meta.

(** A row of table [files] (the columns of the migration). *)
Module File.
Record t := mk {
  id : string;
  transferId : string;
  filename : string;
  originalName : string;
  size : Z;
  mimeType : string;
  uploadOffset : Z;
  uploadComplete : bool;
  createdAt : Z
}.
End File.

(** A row of table [transfers], with the columns that say whether the
    transfer is still live. *)
Module Transfer.
Record t := mk {
  expiresAt : Z;
  status : string
}.
End Transfer.

(** What a file of the upload directory holds: raw bytes, or the text
    [JSON.stringify m] followed by [tail] (bytes appended to it later). *)
Inductive content :=
| Raw (data : bytes)
| Json (m : meta.t) (tail : bytes).

Record state := State {
  fs : gmap string content;
  transfers : gmap string Transfer.t;
  files : gmap string File.t
}.

(** ** Computations that may throw *)

Inductive outcome (A : Type) :=
| Done (a : A)
| Thrown.
Arguments Done {A} a.
Arguments Thrown {A}.

Definition M (A : Type) : Type := state -> outcome A * state.

#[global] Instance M_ret : MRet M := fun A a st => (Done a, st).
#[global] Instance M_bind : MBind M := fun A B k m st =>
  match m st with
  | (Done a, st') => k a st'
  | (Thrown, st') => (Thrown, st')
  end.

Definition throw {A} : M A := fun st => (Thrown, st).

(** [p.catch(() => {})] *)
Definition catch_ignore (m : M unit) : M unit := fun st =>
  match m st with
  | (Done a, st') => (Done a, st')
  | (Thrown, st') => (Done tt, st')
  end.

(** [try { m } catch { return r }] *)
Definition try_catch {A} (m : M A) (r : A) : state -> A * state := fun st =>
  match m st with
  | (Done a, st') => (a, st')
  | (Thrown, st') => (r, st')
  end.

Definition set_fs (f : gmap string content -> gmap string content) (st : state) : state :=
  State (f (fs st)) (transfers st) (files st).

Definition set_files (f : gmap string File.t -> gmap string File.t) (st : state) : state :=
  State (fs st) (transfers st) (f (files st)).

(** *** [fs] *)

Definition existsSync (p : string) : M bool := fun st =>
  (Done (bool_decide (is_Some (fs st !! p))), st).

Definition writeFileSync (p : string) (c : content) : M unit := fun st =>
  (Done tt, set_fs (insert p c) st).

(** The content of a file after [data] is appended to it; a missing file
    is created. *)
Definition append_content (old : option content) (data : bytes) : content :=
  match old with
  | None => Raw data
  | Some (Raw bs) => Raw (bs ++ data)%list
  | Some (Json m tail) => Json m (tail ++ data)%list
  end.

(** How the storage answers one [appendFileSync]: it takes the whole chunk;
    or it throws before anything is written (the file cannot be opened); or
    it throws in the middle of the write, after the first [written] bytes of
    the chunk have reached the file (the disk fills up, an I/O error). *)
Inductive disk :=
| Accepts
| FailsAtOpen
| FailsAfter (written : nat).

(** A disk that takes the chunk, or refuses it as a whole. *)
Definition disk_of_bool (disk_ok : bool) : disk :=
  if disk_ok then Accepts else FailsAtOpen.
Coercion disk_of_bool : bool >-> disk.

Definition accepts (io : disk) : bool :=
  match io with Accepts => true | _ => false end.

(** [appendFileSync]: the file is opened for appending (and created when it
    is missing), then the chunk is written. Nothing is undone when the write
    throws. *)
Definition appendFileSync (io : disk) (p : string) (data : bytes) : M unit := fun st =>
  match io with
  | Accepts =>
      (Done tt, set_fs (insert p (append_content (fs st !! p) data)) st)
  | FailsAtOpen => (Thrown, st)
  | FailsAfter written =>
      (Thrown, set_fs (insert p (append_content (fs st !! p) (take written data))) st)
  end.

(** The part of the chunk that reaches the file. *)
Definition written_by (io : disk) (data : bytes) : bytes :=
  match io with
  | Accepts => data
  | FailsAtOpen => []
  | FailsAfter written => take written data
  end.

(** The world that an [appendFileSync] that throws leaves behind. *)
Definition torn (io : disk) (p : string) (data : bytes) (st : state) : state :=
  match io with
  | FailsAfter written =>
      set_fs (insert p (append_content (fs st !! p) (take written data))) st
  | _ => st
  end.

Definition readFileSync (p : string) : M content := fun st =>
  match fs st !! p with
  | Some c => (Done c, st)
  | None => (Thrown, st)
  end.

Definition unlinkSync (p : string) : M unit := fun st =>
  match fs st !! p with
  | Some _ => (Done tt, set_fs (delete p) st)
  | None => (Thrown, st)
  end.

Definition isJsonWhiteSpace (b : Byte.byte) : bool :=
  match Byte.to_nat b with
  | 9%nat | 10%nat | 13%nat | 32%nat => true
  | _ => false
  end.

(** [JSON.parse] of a file's text. *)
Definition JSON_parse (c : content) : M meta.t :=
  match c with
  | Json m tail => if forallb isJsonWhiteSpace tail then mret m else throw
  | Raw _ => throw
  end.

(** [BigInt(x)] throws a RangeError on NaN. *)
Definition BigInt (x : option Z) : M Z :=
  match x with Some n => mret n | None => throw end.

(** *** [prisma] *)

Definition prisma_transfer_findUnique (id : string) : M (option Transfer.t) := fun st =>
  (Done (transfers st !! id), st).

(** [prisma.file.create]: the primary key must be free. (The range of the
    column [size], a BIGINT, is not modelled; it holds every safe integer.) *)
Definition prisma_file_create (row : File.t) : M unit := fun st =>
  match files st !! File.id row with
  | None => (Done tt, set_files (insert (File.id row) row) st)
  | Some _ => (Thrown, st)
  end.

(** [prisma.file.update]: throws when no row has this id. *)
Definition prisma_file_update (id : string) (f : File.t -> File.t) : M unit := fun st =>
  match files st !! id with
  | Some row => (Done tt, set_files (insert id (f row)) st)
  | None => (Thrown, st)
  end.

(** [prisma.file.delete]: throws when no row has this id. *)
Definition prisma_file_delete (id : string) : M unit := fun st =>
  match files st !! id with
  | Some _ => (Done tt, set_files (delete id) st)
  | None => (Thrown, st)
  end.

(** ** Requests and responses *)

(** The parts of a [NextRequest] that the handlers read: the four headers
    (as [headers.get] returns them, [None] for an absent header) and the
    body (as [arrayBuffer()] returns it). *)
Record request := Request {
  upload_length : option string;
  upload_offset : option string;
  upload_metadata : option string;
  host : option string;
  payload : bytes
}.

Record response := Response {
  status : Z;
  body : option string;
  headers : list (string * string)
}.

(** The value of a response header; a later entry overrides an earlier one,
    as in an object literal with a spread. *)
Definition header (name : string) (r : response) : option string :=
  snd <$> List.find (fun kv => bool_decide (fst kv = name)) (rev (headers r)).

(** A value that passes [if (x)]: neither [undefined] nor the empty string. *)
Definition truthy (o : option string) : option string :=
  match o with
  | Some s => if decide (s = "") then None else Some s
  | None => None
  end.

(** [path?.[0]] *)
Definition first_segment (path : option (list string)) : option string :=
  path ≫= head.

Definition MAX_SIZE : Z := 100 * 1024 * 1024 * 1024.

(** *** Paths

    The handlers name a file by [join(UPLOAD_DIR, name)]. [join] normalises
    what it puts together: empty segments and [.] are dropped, and [..]
    takes back the segment before it. The result is given here relative to
    the upload directory: [up] directories above it, then [down]. *)
Record place := Place { up : nat; down : list string }.

(** The segments still to walk, from the place reached so far ([rdown] is
    the way down, last segment first). *)
Fixpoint walk (segments : list string) (up : nat) (rdown : list string) : place :=
  match segments with
  | [] => Place up (rev rdown)
  | seg :: rest =>
      if decide (seg = "") then walk rest up rdown
      else if decide (seg = ".") then walk rest up rdown
      else if decide (seg = "..") then
        match rdown with
        | _ :: above => walk rest up above
        | [] => walk rest (S up) []
        end
      else walk rest up (seg :: rdown)
  end.

(** [join(UPLOAD_DIR, name)], relative to [UPLOAD_DIR]. *)
Definition path_join (name : string) : place := walk (split "/" name) 0 [].

(** A name that [join] leaves alone, so that [join(UPLOAD_DIR, name)] is the
    entry [name] of the upload directory: it has no separator (a backslash
    separates too where the platform is Windows) and is neither empty nor a
    dot segment. The identifiers that POST issues, a UUID without its
    dashes, are plain. *)
Definition plain_name (name : string) : bool :=
  all_chars (fun a => negb (Ascii.eqb a "/") && negb (Ascii.eqb a "\")) name
  && negb (bool_decide (name = ""))
  && negb (bool_decide (name = "."))
  && negb (bool_decide (name = "..")).

(** The entries of the upload directory that the handlers name for an
    upload. The directory is a map from the names of its entries to their
    contents, all regular files (the handlers create nothing else in it);
    for a plain [uploadId], these entries are what [join(UPLOAD_DIR, ...)]
    names (lemmas [filePath_plain] and [metadataPath_plain]). *)
Definition filePath (uploadId : string) : string := uploadId.
Definition metadataPath (uploadId : string) : string := uploadId +:+ ".json".

(** The integers that a number holds exactly ([Number.isSafeInteger]). For
    them [parseInt], [String], [JSON.stringify] and [BigInt] are exact, and
    the column of type BIGINT takes them. *)
Definition MAX_SAFE_INTEGER : Z := 2 ^ 53 - 1.

Definition isSafeInteger (n : Z) : bool :=
  (- MAX_SAFE_INTEGER <=? n) && (n <=? MAX_SAFE_INTEGER).

Definition getCorsHeaders : list (string * string) :=
  [ ("Access-Control-Allow-Origin", "*");
    ("Access-Control-Allow-Methods", "POST, PATCH, HEAD, DELETE, OPTIONS");
    ("Access-Control-Allow-Headers",
     "Content-Type, Upload-Length, Upload-Offset, Upload-Metadata, Tus-Resumable, Tus-Version, Tus-Extension, Tus-Max-Size, Content-Length");
    ("Access-Control-Expose-Headers",
     "Upload-Offset, Upload-Length, Tus-Resumable, Tus-Version, Tus-Extension, Tus-Max-Size, Location, Upload-Metadata");
    ("Tus-Resumable", "1.0.0");
    ("Tus-Version", "1.0.0");
    ("Tus-Extension", "creation,creation-with-upload,termination");
    ("Tus-Max-Size", String_ MAX_SIZE) ].

Definition OPTIONS : response := Response 204 None getCorsHeaders.

Definition internal_error (text : option string) : response :=
  Response 500 text getCorsHeaders.

(** The resource location that POST answers, built from the [Host] header. *)
Definition location (req : request) (uploadId : string) : string :=
  let host := or_default (host req) "localhost:3000" in
  let protocol := if includes host "localhost" then "http" else "https" in
  protocol +:+ "://" +:+ host +:+ "/api/tus/" +:+ uploadId.

Section Handlers.

(** [Buffer.from(value, "base64").toString("utf-8")], a function of the
    platform. It never throws, so the [catch] in [parseMetadata] is dead. *)
Variable base64_utf8 : string -> string.

(** One iteration of the loop of [parseMetadata]. [result] is an object
    literal: an assignment to its key [__proto__] runs the setter of
    [Object.prototype], which ignores a string, so no entry is made. *)
Definition parseMetadata_pair (result : gmap string string) (pair : string)
  : gmap string string :=
  match split " " (trim pair) with
  | key :: value :: _ =>
      if decide (key = "") then result
      else if decide (value = "") then result
      else if decide (key = "__proto__") then result
      else <[key := base64_utf8 value]> result
  | _ => result
  end.

Definition parseMetadata (metadataHeader : option string) : gmap string string :=
  match truthy metadataHeader with
  | None => ∅
  | Some h => fold_left parseMetadata_pair (split "," h) ∅
  end.

(** POST - create upload. [uuid] is [uuidv4().replace(/-/g, "")], [now]
    the clock. *)
Definition POST (disk_ok : disk) (uuid : string) (now : Z) (req : request)
  : state -> response * state :=
  try_catch (
    let uploadLength := parseInt (or_default (upload_length req) "0") in
    let metadata := parseMetadata (upload_metadata req) in
    let filename := or_default (metadata !! "filename") "unknown" in
    let filetype := or_default (metadata !! "filetype") "application/octet-stream" in
    match truthy (metadata !! "transferId") with
    | None =>
        mret (Response 400 (Some "Missing transferId in metadata") getCorsHeaders)
    | Some transferId =>
        transfer ← prisma_transfer_findUnique transferId;
        match transfer with
        | None => mret (Response 404 (Some "Transfer not found") getCorsHeaders)
        | Some _ =>
            let uploadId := uuid in
            writeFileSync (filePath uploadId) (Raw []);;
            writeFileSync (metadataPath uploadId)
              (Json (meta.mk uploadId metadata uploadLength 0 now) []);;
            size ← BigInt uploadLength;
            prisma_file_create
              (File.mk uploadId transferId uploadId filename size filetype 0 false now);;
            let body := payload req in
            (if 0 <? byteLength body then
               appendFileSync disk_ok (filePath uploadId) body;;
               c ← readFileSync (metadataPath uploadId);
               meta ← JSON_parse c;
               writeFileSync (metadataPath uploadId)
                 (Json (meta.with_offset meta (byteLength body)) [])
             else mret tt);;
            mret (Response 201 None
                    (getCorsHeaders ++
                     [("Location", location req uploadId);
                      ("Upload-Offset", String_ (byteLength body))])%list)
        end
    end)
    (internal_error (Some "Internal server error")).

End Handlers.

(** What PATCH writes to the row of the file. *)
Definition mark_complete (newOffset : Z) (row : File.t) : File.t :=
  File.mk (File.id row) (File.transferId row) (File.filename row)
    (File.originalName row) newOffset (File.mimeType row) newOffset true
    (File.createdAt row).

Definition mark_progress (newOffset : Z) (row : File.t) : File.t :=
  File.mk (File.id row) (File.transferId row) (File.filename row)
    (File.originalName row) (File.size row) (File.mimeType row) newOffset
    (File.uploadComplete row) (File.createdAt row).

(** PATCH - resume upload. *)
Definition PATCH (disk_ok : disk) (req : request) (path : option (list string))
  : state -> response * state :=
  try_catch (
    match truthy (first_segment path) with
    | None => mret (Response 400 (Some "Upload ID required") getCorsHeaders)
    | Some uploadId =>
        found ← existsSync (metadataPath uploadId);
        if negb found then
          mret (Response 404 (Some "Upload not found") getCorsHeaders)
        else
          let uploadOffset := parseInt (or_default (upload_offset req) "0") in
          c ← readFileSync (metadataPath uploadId);
          meta ← JSON_parse c;
          if negb (bool_decide (uploadOffset = Some (meta.offset meta))) then
            mret (Response 409 (Some "Offset mismatch")
                    (getCorsHeaders ++
                     [("Upload-Offset", String_ (meta.offset meta))])%list)
          else
            let body := payload req in
            (if 0 <? byteLength body then
               appendFileSync disk_ok (filePath uploadId) body
             else mret tt);;
            let newOffset := meta.offset meta + byteLength body in
            let meta := meta.with_offset meta newOffset in
            writeFileSync (metadataPath uploadId) (Json meta []);;
            (if newOffset >=? default 0 (meta.size meta) then
               prisma_file_update uploadId (mark_complete newOffset)
             else
               prisma_file_update uploadId (mark_progress newOffset));;
            mret (Response 204 None
                    (getCorsHeaders ++
                     [("Upload-Offset", String_ newOffset)])%list)
    end)
    (internal_error (Some "Internal server error")).

(** HEAD - check upload status. *)
Definition HEAD (path : option (list string)) : state -> response * state :=
  try_catch (
    match truthy (first_segment path) with
    | None => mret (Response 400 None getCorsHeaders)
    | Some uploadId =>
        found ← existsSync (metadataPath uploadId);
        if negb found then mret (Response 404 None getCorsHeaders)
        else
          c ← readFileSync (metadataPath uploadId);
          meta ← JSON_parse c;
          mret (Response 200 None
                  (getCorsHeaders ++
                   [("Upload-Offset", String_ (meta.offset meta));
                    ("Upload-Length", String_nullable (meta.size meta));
                    ("Cache-Control", "no-store")])%list)
    end)
    (internal_error None).

(** DELETE - cancel upload. *)
Definition DELETE (path : option (list string)) : state -> response * state :=
  try_catch (
    match truthy (first_segment path) with
    | None => mret (Response 400 None getCorsHeaders)
    | Some uploadId =>
        blob ← existsSync (filePath uploadId);
        (if (blob : bool) then unlinkSync (filePath uploadId) else mret tt);;
        side ← existsSync (metadataPath uploadId);
        (if (side : bool) then unlinkSync (metadataPath uploadId) else mret tt);;
        catch_ignore (prisma_file_delete uploadId);;
        mret (Response 204 None getCorsHeaders)
    end)
    (internal_error None).

(** *** PATCH in two parts

    PATCH awaits the body of the request ([await req.arrayBuffer()]) between
    reading the side record and writing it back, and takes no lock: another
    call can run at that point. [PATCH_begin] is the handler up to that
    [await]; it answers at once, or goes on with what it has read.
    [PATCH_resume] is the rest of the handler, which uses the side record
    read before the [await]. *)
Record pending := Pending {
  pending_uploadId : string;
  pending_meta : meta.t
}.

Definition PATCH_begin (req : request) (path : option (list string))
  : state -> (response + pending) * state :=
  try_catch (
    match truthy (first_segment path) with
    | None => mret (inl (Response 400 (Some "Upload ID required") getCorsHeaders))
    | Some uploadId =>
        found ← existsSync (metadataPath uploadId);
        if negb found then
          mret (inl (Response 404 (Some "Upload not found") getCorsHeaders))
        else
          let uploadOffset := parseInt (or_default (upload_offset req) "0") in
          c ← readFileSync (metadataPath uploadId);
          meta ← JSON_parse c;
          if negb (bool_decide (uploadOffset = Some (meta.offset meta))) then
            mret (inl (Response 409 (Some "Offset mismatch")
                         (getCorsHeaders ++
                          [("Upload-Offset", String_ (meta.offset meta))])%list))
          else mret (inr (Pending uploadId meta))
    end)
    (inl (internal_error (Some "Internal server error"))).

Definition PATCH_resume (disk_ok : disk) (req : request) (p : pending)
  : state -> response * state :=
  try_catch (
    let uploadId := pending_uploadId p in
    let meta := pending_meta p in
    let body := payload req in
    (if 0 <? byteLength body then
       appendFileSync disk_ok (filePath uploadId) body
     else mret tt);;
    let newOffset := meta.offset meta + byteLength body in
    let meta := meta.with_offset meta newOffset in
    writeFileSync (metadataPath uploadId) (Json meta []);;
    (if newOffset >=? default 0 (meta.size meta) then
       prisma_file_update uploadId (mark_complete newOffset)
     else
       prisma_file_update uploadId (mark_progress newOffset));;
    mret (Response 204 None
            (getCorsHeaders ++
             [("Upload-Offset", String_ newOffset)])%list))
    (internal_error (Some "Internal server error")).

(** Two Appends [a] and [b] on the same path that overlap: both read the
    side record before either writes. [a] gets its body first. *)
Definition overlapped (a b : request) (path : option (list string)) (st : state)
  : option ((response * state) * (response * state)) :=
  match PATCH_begin a path st with
  | (inr pa, st1) =>
      match PATCH_begin b path st1 with
      | (inr pb, st2) =>
          let '(ra, st3) := PATCH_resume true a pa st2 in
          Some ((ra, st3), PATCH_resume true b pb st3)
      | _ => None
      end
  | _ => None
  end.

(** ** Observations on the world *)

(** The side record of an upload, as a handler reads it: the side file
    exists and parses. This is the session of the upload. *)
Definition side_record (c : option content) : option meta.t :=
  match c with
  | Some (Json m tail) => if forallb isJsonWhiteSpace tail then Some m else None
  | _ => None
  end.

Definition read_meta (st : state) (uploadId : string) : option meta.t :=
  side_record (fs st !! metadataPath uploadId).

(** The bytes stored for an upload. *)
Definition stored_bytes (st : state) (uploadId : string) : option bytes :=
  match fs st !! filePath uploadId with
  | Some (Raw data) => Some data
  | _ => None
  end.

(** The offset a PATCH request claims. *)
Definition claimed_offset (req : request) : option Z :=
  parseInt (or_default (upload_offset req) "0").

(** The identifier of the parent transfer that a POST request names. *)
Definition transferId_of (base64_utf8 : string -> string) (req : request)
  : option string :=
  truthy (parseMetadata base64_utf8 (upload_metadata req) !! "transferId").

(** The completion flag of an upload: column [upload_complete] of its row. *)
Definition complete (st : state) (uploadId : string) : option bool :=
  File.uploadComplete <$> files st !! uploadId.

(** ** Sequences of calls *)

Inductive op :=
| OpPOST (disk_ok : disk) (uuid : string) (now : Z) (req : request)
| OpPATCH (disk_ok : disk) (req : request) (path : option (list string))
| OpHEAD (path : option (list string))
| OpDELETE (path : option (list string)).

Definition step (base64_utf8 : string -> string) (o : op) (st : state)
  : response * state :=
  match o with
  | OpPOST disk_ok uuid now req => POST base64_utf8 disk_ok uuid now req st
  | OpPATCH disk_ok req path => PATCH disk_ok req path st
  | OpHEAD path => HEAD path st
  | OpDELETE path => DELETE path st
  end.

(** Calls that run one after another: each one starts in the world that
    the one before has left. *)
Fixpoint run (base64_utf8 : string -> string) (ops : list op) (st : state) : state :=
  match ops with
  | [] => st
  | o :: rest => run base64_utf8 rest (snd (step base64_utf8 o st))
  end.

(** The call is a POST to which [uuidv4] hands the identifier [uploadId];
    identifiers are fresh, so this does not happen for an existing upload. *)
Definition issues (uploadId : string) (o : op) : bool :=
  match o with
  | OpPOST _ uuid _ _ => bool_decide (uuid = uploadId)
  | _ => false
  end.

(** Every session of the world is at a non-negative offset. *)
Definition offsets_nonneg (st : state) : Prop :=
  forall uploadId m, read_meta st uploadId = Some m -> 0 <= meta.offset m.

(** Every session of the world is within its declared size. *)
Definition within_declared_size (st : state) : Prop :=
  forall uploadId m,
    read_meta st uploadId = Some m ->
    0 <= meta.offset m <= default 0 (meta.size m).

(** ** A concrete world

    The scenario of the protocol: one transfer [T], one upload [u1] declared
    with ten bytes and sent in two chunks of six and four. *)
Module Example.
(** The decoder, on the three values that the examples send. *)
Definition base64 (s : string) : string :=
  if decide (s = "VA==") then "T"
  else if decide (s = "WA==") then "X"
  else if decide (s = "YS5iaW4=") then "a.bin"
  else "".

Definition world0 : state :=
  State ∅ {[ "T" := Transfer.mk 100 "pending" ]} ∅.

Definition create (len : string) (data : bytes) : request :=
  Request (Some len) None (Some "transferId VA==,filename YS5iaW4=")
    (Some "example.org") data.

Definition append (off : option string) (data : bytes) : request :=
  Request None off None (Some "example.org") data.

Definition six : bytes := [x01; x02; x03; x04; x05; x06].
Definition four : bytes := [x07; x08; x09; x0a].
Definition ten : bytes := (six ++ four)%list.

Definition u1 : option (list string) := Some ["u1"].

Definition meta_u1 (offset : Z) : meta.t :=
  meta.mk "u1" (parseMetadata base64 (Some "transferId VA==,filename YS5iaW4="))
    (Some 10) offset 5.

Definition row_u1 (size offset : Z) (finished : bool) : File.t :=
  File.mk "u1" "T" "u1" "a.bin" size "application/octet-stream" offset finished 5.

(** [u1] created, nothing received. *)
Definition at0 : state :=
  run base64 [OpPOST true "u1" 5 (create "10" [])] world0.

(** Six bytes received. *)
Definition at6 : state :=
  run base64 [OpPATCH true (append (Some "0") six) u1] at0.

(** All ten bytes received. *)
Definition at10 : state :=
  run base64 [OpPATCH true (append (Some "6") four) u1] at6.

(** A transfer that expired at time 100 and was marked deleted by the
    cleanup job. *)
Definition expired_world : state :=
  State ∅ {[ "T" := Transfer.mk 100 "deleted" ]} ∅.
End Example.

(** ** The client's side of the protocol *)

(** The identifier that a call works on: the one [uuidv4] hands to POST, the
    first segment of the path for the others. *)
Definition op_id (o : op) : option string :=
  match o with
  | OpPOST _ uuid _ _ => Some uuid
  | OpPATCH _ _ path => truthy (first_segment path)
  | OpHEAD path => truthy (first_segment path)
  | OpDELETE path => truthy (first_segment path)
  end.

(** An Append request: the claimed offset as the text of the header, and
    the chunk. *)
Definition append_request (offset : string) (chunk : bytes) : request :=
  Request None (Some offset) None None chunk.

(** A client that sends its chunks in order, each one at the offset that the
    answer to the previous one reported in [Upload-Offset]; it stops at the
    first answer without that header. The answers are returned in order. *)
Fixpoint send_chunks (uploadId : string) (offset : string) (chunks : list bytes)
  (st : state) : list response * state :=
  match chunks with
  | [] => ([], st)
  | chunk :: rest =>
      let '(r, st1) := PATCH true (append_request offset chunk) (Some [uploadId]) st in
      match header "Upload-Offset" r with
      | Some next =>
          let '(rs, st2) := send_chunks uploadId next rest st1 in (r :: rs, st2)
      | None => ([r], st1)
      end
  end.

(** ** The metadata header as a client writes it *)

(** A key, or an encoded value: not empty, without white space and without
    a comma. *)
Definition token (s : string) : bool :=
  negb (bool_decide (s = ""))
  && all_chars (fun a => negb (isWhiteSpace a) && negb (Ascii.eqb a ",")) s.

(** A pair that [parseMetadata] can store: its key is not [__proto__]. *)
Definition named_property (kv : string * string) : bool :=
  negb (bool_decide (fst kv = "__proto__")).

(** The [Upload-Metadata] header for a list of keys with their encoded
    values: [key value] pairs joined by commas. *)
Definition metadata_header (pairs : list (string * string)) : string :=
  String.concat "," (map (fun kv => fst kv +:+ " " +:+ snd kv) pairs).

(** ** The cleanup job ([cleanupExpiredTransfers])

    The job of [lib/cleanup]: it removes the stored bytes of the files of
    every transfer that has expired and is not yet marked deleted, and marks
    the transfer deleted. [now] is the clock. *)

(** The filter of [prisma.transfer.findMany]: [expiresAt < now] and
    [status != "deleted"]. *)
Definition expired (now : Z) (t : Transfer.t) : bool :=
  (Transfer.expiresAt t <? now)
  && negb (bool_decide (Transfer.status t = "deleted")).

(** The rows of the files of a transfer ([include: { files: true }]). *)
Definition files_of (transferId : string) (rows : gmap string File.t) : list File.t :=
  snd <$> map_to_list (filter (fun kv => File.transferId (snd kv) = transferId) rows).

(** [prisma.transfer.findMany]: the identifiers of the expired transfers,
    each with the rows of its files, in the order of the table. *)
Definition prisma_transfer_findMany_expired (now : Z)
  : M (list (string * list File.t)) := fun st =>
  (Done ((fun kv => (fst kv, files_of (fst kv) (files st)))
           <$> map_to_list (filter (fun kv => expired now (snd kv) = true)
                              (transfers st))),
   st).

(** The list that [findMany] returns. *)
Definition expired_entries (now : Z) (st : state) : list (string * list File.t) :=
  (fun kv => (fst kv, files_of (fst kv) (files st)))
    <$> map_to_list (filter (fun kv => expired now (snd kv) = true) (transfers st)).

Definition set_transfers
  (f : gmap string Transfer.t -> gmap string Transfer.t) (st : state) : state :=
  State (fs st) (f (transfers st)) (files st).

(** [prisma.transfer.update]: throws when no row has this id. *)
Definition prisma_transfer_update (id : string) (f : Transfer.t -> Transfer.t)
  : M unit := fun st =>
  match transfers st !! id with
  | Some row => (Done tt, set_transfers (insert id (f row)) st)
  | None => (Thrown, st)
  end.

Definition mark_deleted (t : Transfer.t) : Transfer.t :=
  Transfer.mk (Transfer.expiresAt t) "deleted".

(** [for (const x of l) { f(x) }] *)
Fixpoint for_each {A} (f : A -> M unit) (l : list A) : M unit :=
  match l with
  | [] => mret tt
  | x :: rest => f x;; for_each f rest
  end.

(** The body of the inner loop: the file is looked for under its name and,
    when it is not there, under its name with [.bin]; an error is logged and
    the loop goes on. *)
Definition cleanup_file (file : File.t) : M unit :=
  catch_ignore (
    let filePath := File.filename file in
    found ← existsSync filePath;
    let filePath := if (found : bool) then filePath else filePath +:+ ".bin" in
    found ← existsSync filePath;
    if (found : bool) then unlinkSync filePath else mret tt).

Definition cleanup_transfer (entry : string * list File.t) : M unit :=
  for_each cleanup_file (snd entry);;
  prisma_transfer_update (fst entry) mark_deleted.

Definition cleanupExpiredTransfers (now : Z) (st : state) : state :=
  snd (try_catch
         (expiredTransfers ← prisma_transfer_findMany_expired now;
          for_each cleanup_transfer expiredTransfers)
         tt st).

(** What the body of the inner loop does to the upload directory. *)
Definition unlink_upload (name : string) (dir : gmap string content)
  : gmap string content :=
  match dir !! name with
  | Some _ => delete name dir
  | None => delete (name +:+ ".bin") dir
  end.

(** The directory after the files of all the entries were looked for. *)
Definition unlink_all (entries : list (string * list File.t))
  (dir : gmap string content) : gmap string content :=
  fold_left (fun d f => unlink_upload (File.filename f) d)
    (concat (snd <$> entries)) dir.

(** The test of the download routes: a transfer that is marked deleted, or
    past its expiry date, is answered 410. *)
Definition expired_or_deleted (now : Z) (t : Transfer.t) : bool :=
  bool_decide (Transfer.status t = "deleted") || (Transfer.expiresAt t <? now).

(** * Properties *)

(** ** Paths *)

Lemma append_cons a s t : String a s +:+ t = String a (s +:+ t).
Proof. reflexivity. Qed.

Lemma append_nil_l t : "" +:+ t = t.
Proof. reflexivity. Qed.

Lemma all_chars_app f s1 s2 :
  all_chars f (s1 +:+ s2) = all_chars f s1 && all_chars f s2.
Proof.
  induction s1 as [|a s1 IH]; [reflexivity|].
  rewrite append_cons. cbn [all_chars]. now rewrite IH, andb_assoc.
Qed.

Lemma all_chars_impl (f g : ascii -> bool) s :
  (forall a, f a = true -> g a = true) ->
  all_chars f s = true -> all_chars g s = true.
Proof.
  intros Hfg. induction s as [|a s IH]; cbn [all_chars]; [reflexivity|].
  intros [Ha Hs]%andb_true_iff. rewrite (Hfg a Ha). now apply IH.
Qed.

Lemma split_no_sep sep s :
  all_chars (fun a => negb (Ascii.eqb a sep)) s = true -> split sep s = [s].
Proof.
  induction s as [|a s IH]; cbn [all_chars split]; [reflexivity|].
  intros [Ha Hs]%andb_true_iff. apply negb_true_iff in Ha.
  now rewrite Ha, (IH Hs).
Qed.

Lemma plain_name_nonempty name : plain_name name = true -> name <> "".
Proof.
  unfold plain_name. intros H E. subst name. discriminate H.
Qed.

Lemma plain_name_no_separator name :
  plain_name name = true ->
  all_chars (fun a => negb (Ascii.eqb a "/")) name = true.
Proof.
  unfold plain_name. intros H.
  apply andb_true_iff in H as [H _]. apply andb_true_iff in H as [H _].
  apply andb_true_iff in H as [H _]. revert H. apply all_chars_impl.
  now intros a [Ha _]%andb_true_iff.
Qed.

(** [join] leaves a plain name alone. *)
Lemma path_join_plain name :
  plain_name name = true -> path_join name = Place 0 [name].
Proof.
  intros H. unfold path_join.
  rewrite split_no_sep by now apply plain_name_no_separator.
  unfold plain_name in H.
  apply andb_true_iff in H as [H Hdd]. apply andb_true_iff in H as [H Hd].
  apply andb_true_iff in H as [_ He].
  apply negb_true_iff, bool_decide_eq_false in Hdd, Hd, He.
  cbn [walk].
  destruct (decide (name = "")); [contradiction|].
  destruct (decide (name = ".")); [contradiction|].
  destruct (decide (name = "..")); [contradiction|].
  reflexivity.
Qed.

Lemma metadataPath_inj a b : metadataPath a = metadataPath b -> a = b.
Proof.
  unfold metadataPath. revert b.
  induction a as [|x a IH]; intros [|y b] H; simpl in H; try reflexivity.
  - exfalso. injection H as _ H. destruct b as [|? [|? [|? [|? [|? ?]]]]]; simpl in H; discriminate.
  - exfalso. injection H as _ H. destruct a as [|? [|? [|? [|? [|? ?]]]]]; simpl in H; discriminate.
  - injection H as -> H. f_equal. apply IH, H.
Qed.

Lemma metadataPath_length a : String.length (metadataPath a) = S (S (S (S (S (String.length a))))).
Proof. unfold metadataPath. induction a; simpl; [reflexivity | now f_equal]. Qed.

Lemma metadataPath_filePath a : metadataPath a <> filePath a.
Proof.
  intros H. apply (f_equal String.length) in H.
  rewrite metadataPath_length in H. unfold filePath in H. lia.
Qed.

Lemma plain_name_metadataPath uploadId :
  plain_name uploadId = true -> plain_name (metadataPath uploadId) = true.
Proof.
  unfold plain_name. intros H.
  apply andb_true_iff in H as [H _]. apply andb_true_iff in H as [H _].
  apply andb_true_iff in H as [H _].
  assert (forall s, String.length s < 5 -> metadataPath uploadId <> s)%nat as Hlen.
  { intros s Hs E. apply (f_equal String.length) in E.
    rewrite metadataPath_length in E. lia. }
  unfold metadataPath at 1. rewrite all_chars_app, H. cbn [all_chars andb].
  rewrite !bool_decide_false by (apply Hlen; cbn; lia). reflexivity.
Qed.

(** For a plain identifier, the two paths that the handlers build are the
    entries [filePath] and [metadataPath] of the upload directory. *)
Lemma filePath_plain uploadId :
  plain_name uploadId = true ->
  path_join uploadId = Place 0 [filePath uploadId].
Proof. apply path_join_plain. Qed.

Lemma metadataPath_plain uploadId :
  plain_name uploadId = true ->
  path_join (uploadId +:+ ".json") = Place 0 [metadataPath uploadId].
Proof. intros H. now apply path_join_plain, plain_name_metadataPath. Qed.

(** Identifiers that are not plain: the first names the upload directory
    itself, the second the file of another upload, the third a file outside
    the upload directory. *)
Example path_join_directory : path_join "x/.." = Place 0 [].
Proof. reflexivity. Qed.

Example path_join_other_upload : path_join "x/../u1" = path_join "u1".
Proof. reflexivity. Qed.

Example path_join_outside : path_join "../etc" = Place 1 ["etc"].
Proof. reflexivity. Qed.

Example plain_name_uuid :
  plain_name "3f2b8c1e9d4a4f7ab6c5d0e1f2a3b4c5" = true.
Proof. reflexivity. Qed.

(** ** Reading the session *)

Lemma read_meta_Some st uploadId m :
  read_meta st uploadId = Some m ->
  exists tail, fs st !! metadataPath uploadId = Some (Json m tail)
               /\ forallb isJsonWhiteSpace tail = true.
Proof.
  unfold read_meta, side_record. intros H.
  destruct (fs st !! metadataPath uploadId) as [[data|m' tail]|] eqn:E; try discriminate.
  destruct (forallb isJsonWhiteSpace tail) eqn:Ews; try discriminate.
  injection H as ->. eauto.
Qed.

Lemma truthy_Some s : s <> "" -> truthy (Some s) = Some s.
Proof. intros H. unfold truthy. destruct (decide (s = "")); congruence. Qed.

Lemma accepts_bool (disk_ok : bool) : accepts disk_ok = disk_ok.
Proof. now destruct disk_ok. Qed.

Lemma torn_bool (disk_ok : bool) p data st : torn disk_ok p data st = st.
Proof. now destruct disk_ok. Qed.

Lemma torn_fs_lookup io p data st q :
  fs (torn io p data st) !! q = fs st !! q
  \/ exists data', fs (torn io p data st) !! q
                   = Some (append_content (fs st !! q) data').
Proof.
  destruct io as [| |written]; cbn [torn]; [now left..|].
  unfold set_fs. cbn [fs].
  destruct (decide (q = p)) as [->|Hq].
  - right. exists (take written data). apply lookup_insert_eq.
  - left. now apply lookup_insert_ne.
Qed.

Lemma torn_files io p data st : files (torn io p data st) = files st.
Proof. now destruct io. Qed.

Lemma torn_transfers io p data st : transfers (torn io p data st) = transfers st.
Proof. now destruct io. Qed.

(** Unfolds one handler down to matches on the world. *)
Ltac unfold_handler :=
  unfold PATCH, HEAD, DELETE, POST, try_catch, first_segment, internal_error;
  cbn [mbind option_bind head];
  repeat (rewrite truthy_Some by assumption);
  cbv beta iota zeta delta
    [mbind M_bind mret M_ret throw existsSync readFileSync writeFileSync
     appendFileSync unlinkSync JSON_parse BigInt catch_ignore
     prisma_transfer_findUnique prisma_file_create prisma_file_update
     prisma_file_delete].

Lemma PATCH_mismatch disk_ok req uploadId rest m st :
  uploadId <> "" ->
  read_meta st uploadId = Some m ->
  claimed_offset req <> Some (meta.offset m) ->
  PATCH disk_ok req (Some (uploadId :: rest)) st =
    (Response 409 (Some "Offset mismatch")
       (getCorsHeaders ++ [("Upload-Offset", String_ (meta.offset m))])%list, st).
Proof.
  intros Hid Hm Hoff. apply read_meta_Some in Hm as (tail & Hfs & Hws).
  unfold_handler. rewrite Hfs.
  rewrite bool_decide_true by eauto. cbn [negb]. cbv beta iota.
  rewrite Hfs, Hws. cbv beta iota.
  fold (claimed_offset req). rewrite bool_decide_false by assumption.
  reflexivity.
Qed.

(** The call on the session of [uploadId] when the claimed offset is the
    stored one: what is written, and what is answered. *)
Lemma PATCH_accepted disk_ok req uploadId rest m st :
  uploadId <> "" ->
  read_meta st uploadId = Some m ->
  claimed_offset req = Some (meta.offset m) ->
  PATCH disk_ok req (Some (uploadId :: rest)) st =
    let data := payload req in
    let n := meta.offset m + byteLength data in
    if (0 <? byteLength data) && negb (accepts disk_ok) then
      (internal_error (Some "Internal server error"),
       torn disk_ok (filePath uploadId) data st)
    else
      let fs1 := if 0 <? byteLength data
                 then <[filePath uploadId :=
                          append_content (fs st !! filePath uploadId) data]> (fs st)
                 else fs st in
      let fs2 := <[metadataPath uploadId := Json (meta.with_offset m n) []]> fs1 in
      match files st !! uploadId with
      | Some row =>
          (Response 204 None (getCorsHeaders ++ [("Upload-Offset", String_ n)])%list,
           State fs2 (transfers st)
             (<[uploadId := (if n >=? default 0 (meta.size m)
                             then mark_complete n else mark_progress n) row]>
                (files st)))
      | None =>
          (internal_error (Some "Internal server error"),
           State fs2 (transfers st) (files st))
      end.
Proof.
  intros Hid Hm Hoff. apply read_meta_Some in Hm as (tail & Hfs & Hws).
  unfold_handler. rewrite Hfs.
  rewrite bool_decide_true by eauto. cbn [negb]. cbv beta iota.
  rewrite Hfs, Hws. cbv beta iota.
  fold (claimed_offset req). rewrite bool_decide_true by assumption.
  cbn [negb]. cbv beta iota.
  unfold internal_error.
  destruct (0 <? byteLength (payload req)), disk_ok; cbn [andb negb accepts torn];
    cbv beta iota; unfold set_fs, set_files; simpl;
    try reflexivity;
    destruct (meta.offset m + byteLength (payload req) >=? default 0 (meta.size m));
    simpl; destruct (files st !! uploadId); reflexivity.
Qed.

(** Without a readable side record nothing is written. *)
Lemma PATCH_no_session disk_ok req uploadId rest st :
  uploadId <> "" ->
  read_meta st uploadId = None ->
  snd (PATCH disk_ok req (Some (uploadId :: rest)) st) = st.
Proof.
  intros Hid Hm. unfold read_meta, side_record in Hm. unfold_handler.
  destruct (fs st !! metadataPath uploadId) as [[data|m tail]|] eqn:Hfs.
  - rewrite bool_decide_true by eauto. cbn [negb]. cbv beta iota. now rewrite Hfs.
  - rewrite bool_decide_true by eauto. cbn [negb]. cbv beta iota. rewrite Hfs.
    destruct (forallb isJsonWhiteSpace tail); [discriminate | reflexivity].
  - rewrite bool_decide_false by (intros [? ?]; discriminate). reflexivity.
Qed.

(** Only the first segment of the path is read. *)
Lemma PATCH_path disk_ok req path st :
  PATCH disk_ok req path st =
    match truthy (first_segment path) with
    | Some uploadId => PATCH disk_ok req (Some [uploadId]) st
    | None => (Response 400 (Some "Upload ID required") getCorsHeaders, st)
    end.
Proof.
  unfold PATCH at 1. destruct (truthy (first_segment path)) as [uploadId|] eqn:E;
    [|reflexivity].
  assert (uploadId <> "") as Hid.
  { unfold truthy in E. destruct (first_segment path) as [s|]; [|discriminate].
    destruct (decide (s = "")); congruence. }
  unfold PATCH, first_segment. cbn [mbind option_bind head].
  now rewrite truthy_Some.
Qed.

(** HEAD writes nothing. *)
Lemma HEAD_state path st : snd (HEAD path st) = st.
Proof.
  unfold HEAD, try_catch, internal_error.
  destruct (truthy (first_segment path)) as [uploadId|]; [|reflexivity].
  cbv beta iota zeta delta [mbind M_bind mret M_ret throw existsSync readFileSync JSON_parse].
  destruct (bool_decide (is_Some (fs st !! metadataPath uploadId))); cbn [negb];
    [|reflexivity].
  cbv beta iota.
  destruct (fs st !! metadataPath uploadId) as [[data|m tail]|]; try reflexivity.
  destruct (forallb isJsonWhiteSpace tail); reflexivity.
Qed.

(** Runs an unfolded handler forward as far as the known lookups decide. *)
Ltac world :=
  repeat first
    [ progress cbv beta iota
    | progress cbn [fs files transfers negb andb]
    | match goal with
      | H : ?m !! ?k = _ |- context [?m !! ?k] => rewrite H
      end
    | rewrite bool_decide_true by eauto
    | rewrite bool_decide_false by (intros [? ?]; discriminate) ].

(** DELETE as one equation: both files and the row are removed, whether
    they were there or not, and the answer is always the same. *)
Lemma DELETE_run uploadId rest st :
  uploadId <> "" ->
  DELETE (Some (uploadId :: rest)) st =
    (Response 204 None getCorsHeaders,
     State (delete (metadataPath uploadId) (delete (filePath uploadId) (fs st)))
           (transfers st)
           (delete uploadId (files st))).
Proof.
  intros Hid. destruct st as [dir tbl rows].
  unfold_handler. unfold set_fs, set_files. cbn [fs files transfers].
  assert (delete (filePath uploadId) dir !! metadataPath uploadId
          = dir !! metadataPath uploadId) as Hne
    by (apply lookup_delete_ne; intros E; symmetry in E;
        exact (metadataPath_filePath _ E)).
  destruct (dir !! filePath uploadId) as [c|] eqn:Hblob;
    destruct (dir !! metadataPath uploadId) as [c'|] eqn:Hside;
    destruct (rows !! uploadId) as [row|] eqn:Hrow;
    world;
    rewrite ?(delete_id rows) by assumption;
    rewrite ?(delete_id dir (filePath uploadId)) by assumption;
    rewrite ?(delete_id _ (metadataPath uploadId)) by assumption;
    reflexivity.
Qed.

Lemma DELETE_path path st :
  DELETE path st =
    match truthy (first_segment path) with
    | Some uploadId => DELETE (Some [uploadId]) st
    | None => (Response 400 None getCorsHeaders, st)
    end.
Proof.
  unfold DELETE at 1. destruct (truthy (first_segment path)) as [uploadId|] eqn:E;
    [|reflexivity].
  assert (uploadId <> "") as Hid.
  { unfold truthy in E. destruct (first_segment path) as [s|]; [|discriminate].
    destruct (decide (s = "")); congruence. }
  unfold DELETE, first_segment. cbn [mbind option_bind head].
  now rewrite truthy_Some.
Qed.

Section Create.

Variable base64_utf8 : string -> string.

Lemma POST_no_transferId disk_ok uuid now req st :
  transferId_of base64_utf8 req = None ->
  POST base64_utf8 disk_ok uuid now req st =
    (Response 400 (Some "Missing transferId in metadata") getCorsHeaders, st).
Proof. unfold transferId_of. intros H. unfold POST, try_catch. now rewrite H. Qed.

Lemma POST_unknown_transfer disk_ok uuid now req st transferId :
  transferId_of base64_utf8 req = Some transferId ->
  transfers st !! transferId = None ->
  POST base64_utf8 disk_ok uuid now req st =
    (Response 404 (Some "Transfer not found") getCorsHeaders, st).
Proof.
  unfold transferId_of. intros H Ht. unfold POST, try_catch. rewrite H.
  unfold mbind, M_bind, prisma_transfer_findUnique. now rewrite Ht.
Qed.

(** The call once the parent transfer is found: what is written at each
    point where the handler can stop. *)
Lemma POST_found disk_ok uuid now req st transferId transfer :
  transferId_of base64_utf8 req = Some transferId ->
  transfers st !! transferId = Some transfer ->
  POST base64_utf8 disk_ok uuid now req st =
    let metadata := parseMetadata base64_utf8 (upload_metadata req) in
    let uploadLength := parseInt (or_default (upload_length req) "0") in
    let data := payload req in
    let m0 := meta.mk uuid metadata uploadLength 0 now in
    let fs1 := <[metadataPath uuid := Json m0 []]>
                 (<[filePath uuid := Raw []]> (fs st)) in
    match uploadLength, files st !! uuid with
    | Some size, None =>
        let rows := <[uuid := File.mk uuid transferId uuid
                                (or_default (metadata !! "filename") "unknown")
                                size
                                (or_default (metadata !! "filetype")
                                   "application/octet-stream")
                                0 false now]> (files st) in
        let created := Response 201 None
                         (getCorsHeaders ++
                          [("Location", location req uuid);
                           ("Upload-Offset", String_ (byteLength data))])%list in
        if 0 <? byteLength data then
          if accepts disk_ok then
            (created,
             State (<[metadataPath uuid :=
                        Json (meta.with_offset m0 (byteLength data)) []]>
                      (<[filePath uuid := Raw data]> fs1))
                   (transfers st) rows)
          else
            (internal_error (Some "Internal server error"),
             torn disk_ok (filePath uuid) data (State fs1 (transfers st) rows))
        else (created, State fs1 (transfers st) rows)
    | _, _ =>
        (internal_error (Some "Internal server error"),
         State fs1 (transfers st) (files st))
    end.
Proof.
  unfold transferId_of. intros H Ht.
  destruct st as [dir tbl rows]. cbn [fs files transfers] in *.
  unfold POST, try_catch, internal_error. rewrite H.
  cbv beta iota zeta delta
    [mbind M_bind mret M_ret throw existsSync readFileSync writeFileSync
     appendFileSync unlinkSync JSON_parse BigInt catch_ignore
     prisma_transfer_findUnique prisma_file_create prisma_file_update
     prisma_file_delete].
  unfold set_fs, set_files. cbn [fs files transfers File.id]. rewrite Ht.
  cbv beta iota. cbn [fs files transfers File.id].
  destruct (parseInt (or_default (upload_length req) "0")) as [size|];
    [|reflexivity].
  cbv beta iota. cbn [fs files transfers File.id].
  destruct (rows !! uuid) as [row|] eqn:Hrow; [reflexivity|].
  cbv beta iota. cbn [fs files transfers File.id].
  destruct (0 <? byteLength (payload req)); [|reflexivity].
  destruct disk_ok; [|reflexivity..].
  cbv beta iota. cbn [fs files transfers File.id accepts].
  rewrite (lookup_insert_ne _ (metadataPath uuid) (filePath uuid))
    by apply metadataPath_filePath.
  rewrite lookup_insert_eq. cbn [append_content app].
  rewrite (lookup_insert_ne _ (filePath uuid) (metadataPath uuid))
    by (intros E; symmetry in E; exact (metadataPath_filePath _ E)).
  rewrite lookup_insert_eq. reflexivity.
Qed.

End Create.

(** ** What one call can change at a given file name or row *)

Lemma truthy_inv o s : truthy o = Some s -> o = Some s /\ s <> "".
Proof.
  unfold truthy. destruct o as [x|]; [|discriminate].
  destruct (decide (x = "")); [discriminate|]. intros [= ->]. now split.
Qed.

Lemma PATCH_fs_lookup disk_ok req path st p :
  let st' := snd (PATCH disk_ok req path st) in
  fs st' !! p = fs st !! p
  \/ (exists data, fs st' !! p = Some (append_content (fs st !! p) data))
  \/ exists uploadId m,
       p = metadataPath uploadId /\ read_meta st uploadId = Some m
       /\ fs st' !! p =
            Some (Json (meta.with_offset m
                          (meta.offset m + byteLength (payload req))) []).
Proof.
  cbv zeta. rewrite PATCH_path.
  destruct (truthy (first_segment path)) as [uid|] eqn:E; [|now left].
  apply truthy_inv in E as [_ Hid].
  destruct (read_meta st uid) as [m|] eqn:Hm;
    [|rewrite PATCH_no_session by assumption; now left].
  destruct (decide (claimed_offset req = Some (meta.offset m))) as [Hc|Hc];
    [|rewrite (PATCH_mismatch _ _ _ _ m) by assumption; now left].
  rewrite (PATCH_accepted _ _ _ _ m) by assumption. cbv zeta.
  destruct ((0 <? byteLength (payload req)) && negb (accepts disk_ok)).
  { cbn [snd]. destruct (torn_fs_lookup disk_ok (filePath uid) (payload req) st p)
      as [E | E]; [now left | now right; left]. }
  destruct (decide (p = metadataPath uid)) as [->|Hp].
  - right; right. exists uid, m. repeat split; [assumption|].
    destruct (files st !! uid); cbn [snd fs]; apply lookup_insert_eq.
  - assert (forall f : gmap string content,
              <[metadataPath uid := Json (meta.with_offset m
                  (meta.offset m + byteLength (payload req))) []]> f !! p = f !! p)
      as Hskip by (intros f; now apply lookup_insert_ne).
    destruct (0 <? byteLength (payload req)).
    + destruct (decide (p = filePath uid)) as [->|Hq].
      * right; left. exists (payload req).
        destruct (files st !! uid); cbn [snd fs]; rewrite Hskip; apply lookup_insert_eq.
      * left.
        destruct (files st !! uid); cbn [snd fs]; rewrite Hskip;
          now apply lookup_insert_ne.
    + left. destruct (files st !! uid); cbn [snd fs]; apply Hskip.
Qed.

Lemma PATCH_files_lookup disk_ok req path st id :
  let st' := snd (PATCH disk_ok req path st) in
  files st' !! id = files st !! id
  \/ exists row n,
       files st !! id = Some row
       /\ (files st' !! id = Some (mark_complete n row)
           \/ files st' !! id = Some (mark_progress n row)).
Proof.
  cbv zeta. rewrite PATCH_path.
  destruct (truthy (first_segment path)) as [uid|] eqn:E; [|now left].
  apply truthy_inv in E as [_ Hid].
  destruct (read_meta st uid) as [m|] eqn:Hm;
    [|rewrite PATCH_no_session by assumption; now left].
  destruct (decide (claimed_offset req = Some (meta.offset m))) as [Hc|Hc];
    [|rewrite (PATCH_mismatch _ _ _ _ m) by assumption; now left].
  rewrite (PATCH_accepted _ _ _ _ m) by assumption. cbv zeta.
  destruct ((0 <? byteLength (payload req)) && negb (accepts disk_ok));
    [cbn [snd]; rewrite torn_files; now left|].
  destruct (files st !! uid) as [row|] eqn:Hrow; cbn [snd files]; [|now left].
  destruct (decide (id = uid)) as [->|Hne].
  - right. exists row, (meta.offset m + byteLength (payload req)).
    split; [assumption|]. rewrite lookup_insert_eq.
    destruct (_ >=? _); [now left | now right].
  - left. now apply lookup_insert_ne.
Qed.

Lemma PATCH_transfers disk_ok req path st :
  transfers (snd (PATCH disk_ok req path st)) = transfers st.
Proof.
  rewrite PATCH_path.
  destruct (truthy (first_segment path)) as [uid|] eqn:E; [|reflexivity].
  apply truthy_inv in E as [_ Hid].
  destruct (read_meta st uid) as [m|] eqn:Hm;
    [|now rewrite PATCH_no_session by assumption].
  destruct (decide (claimed_offset req = Some (meta.offset m))) as [Hc|Hc];
    [|now rewrite (PATCH_mismatch _ _ _ _ m) by assumption].
  rewrite (PATCH_accepted _ _ _ _ m) by assumption. cbv zeta.
  destruct ((0 <? byteLength (payload req)) && negb (accepts disk_ok));
    [apply torn_transfers|].
  destruct (files st !! uid); reflexivity.
Qed.

Lemma DELETE_fs_lookup path st p :
  let st' := snd (DELETE path st) in
  fs st' !! p = fs st !! p \/ fs st' !! p = None.
Proof.
  cbv zeta. rewrite DELETE_path.
  destruct (truthy (first_segment path)) as [uid|] eqn:E; [|now left].
  apply truthy_inv in E as [_ Hid]. rewrite DELETE_run by assumption. cbn [snd fs].
  destruct (decide (p = metadataPath uid)) as [->|Hp];
    [right; apply lookup_delete_eq|].
  rewrite lookup_delete_ne by congruence.
  destruct (decide (p = filePath uid)) as [->|Hq];
    [right; apply lookup_delete_eq|].
  left. now apply lookup_delete_ne.
Qed.

Lemma DELETE_files_lookup path st id :
  let st' := snd (DELETE path st) in
  files st' !! id = files st !! id \/ files st' !! id = None.
Proof.
  cbv zeta. rewrite DELETE_path.
  destruct (truthy (first_segment path)) as [uid|] eqn:E; [|now left].
  apply truthy_inv in E as [_ Hid]. rewrite DELETE_run by assumption. cbn [snd files].
  destruct (decide (id = uid)) as [->|Hne];
    [right; apply lookup_delete_eq | left; now apply lookup_delete_ne].
Qed.

Section CreateEffects.

Variable base64_utf8 : string -> string.

Lemma POST_fs_lookup disk_ok uuid now req st p :
  let st' := snd (POST base64_utf8 disk_ok uuid now req st) in
  fs st' !! p = fs st !! p
  \/ (exists data, fs st' !! p = Some (Raw data))
  \/ (p = metadataPath uuid
      /\ exists m, fs st' !! p = Some (Json m []) /\ 0 <= meta.offset m).
Proof.
  cbv zeta.
  destruct (transferId_of base64_utf8 req) as [tid|] eqn:Htid;
    [|rewrite POST_no_transferId by assumption; now left].
  destruct (transfers st !! tid) as [t|] eqn:Ht;
    [|rewrite (POST_unknown_transfer _ _ _ _ _ _ tid) by assumption; now left].
  rewrite (POST_found _ _ _ _ _ _ tid t) by assumption. cbv zeta.
  assert (0 <= byteLength (payload req)) as Hlen by (unfold byteLength; lia).
  destruct (decide (p = metadataPath uuid)) as [->|Hp].
  - right; right. split; [reflexivity|].
    destruct (parseInt _) as [size|], (files st !! uuid) as [row|],
      (0 <? byteLength (payload req)), disk_ok;
      cbn [snd fs accepts torn set_fs];
      rewrite ?(lookup_insert_ne _ (filePath uuid) (metadataPath uuid))
        by (intros E; symmetry in E; exact (metadataPath_filePath _ E));
      rewrite lookup_insert_eq; eexists; (split; [reflexivity|]);
      cbn [meta.offset meta.with_offset]; lia.
  - destruct (decide (p = filePath uuid)) as [->|Hq].
    + right; left.
      destruct (parseInt _) as [size|], (files st !! uuid) as [row|],
        (0 <? byteLength (payload req)), disk_ok;
        cbn [snd fs accepts torn set_fs];
        rewrite ?(lookup_insert_ne _ (metadataPath uuid) (filePath uuid))
          by apply metadataPath_filePath;
        rewrite ?lookup_insert_eq; cbn [append_content]; eauto.
    + left.
      destruct (parseInt _) as [size|], (files st !! uuid) as [row|],
        (0 <? byteLength (payload req)), disk_ok;
        cbn [snd fs accepts torn set_fs];
        rewrite ?lookup_insert_ne by congruence; reflexivity.
Qed.

Lemma POST_files_lookup disk_ok uuid now req st id :
  let st' := snd (POST base64_utf8 disk_ok uuid now req st) in
  files st' !! id = files st !! id
  \/ (id = uuid /\ files st !! id = None
      /\ exists row, files st' !! id = Some row
                     /\ File.uploadComplete row = false).
Proof.
  cbv zeta.
  destruct (transferId_of base64_utf8 req) as [tid|] eqn:Htid;
    [|rewrite POST_no_transferId by assumption; now left].
  destruct (transfers st !! tid) as [t|] eqn:Ht;
    [|rewrite (POST_unknown_transfer _ _ _ _ _ _ tid) by assumption; now left].
  rewrite (POST_found _ _ _ _ _ _ tid t) by assumption. cbv zeta.
  destruct (parseInt _) as [size|]; [|now left].
  destruct (files st !! uuid) as [row|] eqn:Hrow; [now left|].
  destruct (decide (id = uuid)) as [->|Hne].
  - right. repeat split; [assumption|].
    destruct (0 <? byteLength (payload req)), disk_ok;
      cbn [snd files accepts torn set_fs];
      rewrite lookup_insert_eq; eauto.
  - left.
    destruct (0 <? byteLength (payload req)), disk_ok;
      cbn [snd files accepts torn set_fs];
      now apply lookup_insert_ne.
Qed.

Lemma POST_transfers disk_ok uuid now req st :
  transfers (snd (POST base64_utf8 disk_ok uuid now req st)) = transfers st.
Proof.
  destruct (transferId_of base64_utf8 req) as [tid|] eqn:Htid;
    [|now rewrite POST_no_transferId by assumption].
  destruct (transfers st !! tid) as [t|] eqn:Ht;
    [|now rewrite (POST_unknown_transfer _ _ _ _ _ _ tid) by assumption].
  rewrite (POST_found _ _ _ _ _ _ tid t) by assumption. cbv zeta.
  destruct (parseInt _) as [size|], (files st !! uuid) as [row|],
    (0 <? byteLength (payload req)), disk_ok; reflexivity.
Qed.

End CreateEffects.

(** ** The side record along a sequence of calls *)

Lemma side_record_append old data m :
  side_record (Some (append_content old data)) = Some m -> side_record old = Some m.
Proof.
  destruct old as [[bs|m0 tail]|]; cbn [append_content side_record]; try discriminate.
  rewrite forallb_app. destruct (forallb isJsonWhiteSpace tail); [|discriminate].
  cbn [andb]. destruct (forallb isJsonWhiteSpace data); [tauto | discriminate].
Qed.

Section Runs.

Variable base64_utf8 : string -> string.

(** A session that is there after a call which did not create it was
    there before, at an offset that is not larger. *)
Lemma step_offset_monotone o st uploadId m' :
  issues uploadId o = false ->
  read_meta (snd (step base64_utf8 o st)) uploadId = Some m' ->
  exists m, read_meta st uploadId = Some m /\ meta.offset m <= meta.offset m'.
Proof.
  unfold read_meta. intros Hfresh H'.
  destruct o as [disk_ok uuid now req | disk_ok req path | path | path];
    cbn [step issues] in *.
  - apply bool_decide_eq_false in Hfresh.
    destruct (POST_fs_lookup base64_utf8 disk_ok uuid now req st
                (metadataPath uploadId)) as [E | [[data E] | [E _]]].
    + rewrite E in H'. exists m'. split; [assumption | lia].
    + rewrite E in H'. discriminate.
    + apply metadataPath_inj in E. congruence.
  - destruct (PATCH_fs_lookup disk_ok req path st (metadataPath uploadId))
      as [E | [[data E] | (uid & m & E & Hm & Hnew)]].
    + rewrite E in H'. exists m'. split; [assumption | lia].
    + rewrite E in H'. apply side_record_append in H'.
      exists m'. split; [assumption | lia].
    + apply metadataPath_inj in E as ->. rewrite Hnew in H'.
      cbn [side_record forallb] in H'. injection H' as <-.
      exists m. split; [exact Hm|].
      cbn [meta.offset meta.with_offset]. unfold byteLength. lia.
  - rewrite HEAD_state in H'. exists m'. split; [assumption | lia].
  - destruct (DELETE_fs_lookup path st (metadataPath uploadId)) as [E | E];
      rewrite E in H'; [|discriminate].
    exists m'. split; [assumption | lia].
Qed.

Lemma run_offset_monotone ops st uploadId m' :
  existsb (issues uploadId) ops = false ->
  read_meta (run base64_utf8 ops st) uploadId = Some m' ->
  exists m, read_meta st uploadId = Some m /\ meta.offset m <= meta.offset m'.
Proof.
  revert st. induction ops as [|o ops IH]; intros st Hfresh H'; cbn [run existsb] in *.
  - exists m'. split; [assumption | lia].
  - apply orb_false_iff in Hfresh as [Ho Hops].
    destruct (IH _ Hops H') as (m1 & H1 & Hle1).
    destruct (step_offset_monotone _ _ _ _ Ho H1) as (m & Hm & Hle).
    exists m. split; [assumption | lia].
Qed.

Lemma step_offsets_nonneg o st :
  offsets_nonneg st -> offsets_nonneg (snd (step base64_utf8 o st)).
Proof.
  unfold offsets_nonneg, read_meta. intros Hst uploadId m' H'.
  destruct o as [disk_ok uuid now req | disk_ok req path | path | path];
    cbn [step] in *.
  - destruct (POST_fs_lookup base64_utf8 disk_ok uuid now req st
                (metadataPath uploadId)) as [E | [[data E] | [_ (m & E & Hm)]]];
      rewrite E in H'.
    + eauto.
    + discriminate.
    + cbn [side_record forallb] in H'. now injection H' as <-.
  - destruct (PATCH_fs_lookup disk_ok req path st (metadataPath uploadId))
      as [E | [[data E] | (uid & m & E & Hm & Hnew)]].
    + rewrite E in H'. eauto.
    + rewrite E in H'. apply side_record_append in H'. eauto.
    + rewrite Hnew in H'. cbn [side_record forallb] in H'. injection H' as <-.
      cbn [meta.offset meta.with_offset].
      specialize (Hst uid m Hm). unfold byteLength. lia.
  - rewrite HEAD_state in H'. eauto.
  - destruct (DELETE_fs_lookup path st (metadataPath uploadId)) as [E | E];
      rewrite E in H'; [eauto | discriminate].
Qed.

Lemma run_offsets_nonneg ops st :
  offsets_nonneg st -> offsets_nonneg (run base64_utf8 ops st).
Proof.
  revert st. induction ops as [|o ops IH]; intros st Hst; cbn [run];
    [assumption|]. apply IH, step_offsets_nonneg, Hst.
Qed.

(** No call writes the table of transfers. *)
Lemma step_transfers o st :
  transfers (snd (step base64_utf8 o st)) = transfers st.
Proof.
  destruct o as [disk_ok uuid now req | disk_ok req path | path | path];
    cbn [step].
  - apply POST_transfers.
  - apply PATCH_transfers.
  - now rewrite HEAD_state.
  - rewrite DELETE_path.
    destruct (truthy (first_segment path)) as [uid|] eqn:E; [|reflexivity].
    apply truthy_inv in E as [_ Hid]. now rewrite DELETE_run.
Qed.

(** A row that is there after a call which did not create it was there
    before, and a set completion flag is still set. *)
Lemma step_complete_stable o st uploadId row' :
  issues uploadId o = false ->
  files (snd (step base64_utf8 o st)) !! uploadId = Some row' ->
  exists row, files st !! uploadId = Some row
              /\ (File.uploadComplete row = true -> File.uploadComplete row' = true).
Proof.
  intros Hfresh H'.
  destruct o as [disk_ok uuid now req | disk_ok req path | path | path];
    cbn [step issues] in *.
  - apply bool_decide_eq_false in Hfresh.
    destruct (POST_files_lookup base64_utf8 disk_ok uuid now req st uploadId)
      as [E | [E _]]; [|congruence].
    rewrite E in H'. eauto.
  - destruct (PATCH_files_lookup disk_ok req path st uploadId)
      as [E | (row & n & Hrow & [E | E])]; rewrite E in H'.
    + eauto.
    + injection H' as <-. exists row. split; [assumption | reflexivity].
    + injection H' as <-. exists row. split; [assumption | tauto].
  - rewrite HEAD_state in H'. eauto.
  - destruct (DELETE_files_lookup path st uploadId) as [E | E];
      rewrite E in H'; [eauto | discriminate].
Qed.

Lemma run_complete_stable ops st uploadId row' :
  existsb (issues uploadId) ops = false ->
  files (run base64_utf8 ops st) !! uploadId = Some row' ->
  exists row, files st !! uploadId = Some row
              /\ (File.uploadComplete row = true -> File.uploadComplete row' = true).
Proof.
  revert st. induction ops as [|o ops IH]; intros st Hfresh H'; cbn [run existsb] in *.
  - eauto.
  - apply orb_false_iff in Hfresh as [Ho Hops].
    destruct (IH _ Hops H') as (row1 & H1 & Hkeep1).
    destruct (step_complete_stable _ _ _ _ Ho H1) as (row & Hrow & Hkeep).
    exists row. split; [assumption | tauto].
Qed.

End Runs.

(** ** The scenario, run *)

Example parseInt_digits : parseInt "107374182400" = Some MAX_SIZE.
Proof. reflexivity. Qed.

Example parseInt_prefix : parseInt "  -12ab" = Some (-12).
Proof. reflexivity. Qed.

Example parseInt_NaN : parseInt "abc" = None.
Proof. reflexivity. Qed.

Example parseMetadata_pairs :
  parseMetadata Example.base64 (Some "transferId VA==, filename YS5iaW4=,junk")
  = <["filename" := "a.bin"]> (<["transferId" := "T"]> ∅).
Proof. vm_compute. reflexivity. Qed.

Example scenario_at6 :
  read_meta Example.at6 "u1" = Some (Example.meta_u1 6)
  /\ stored_bytes Example.at6 "u1" = Some Example.six
  /\ files Example.at6 !! "u1" = Some (Example.row_u1 10 6 false).
Proof. vm_compute. repeat split. Qed.

Example scenario_at10 :
  read_meta Example.at10 "u1" = Some (Example.meta_u1 10)
  /\ stored_bytes Example.at10 "u1" = Some Example.ten
  /\ files Example.at10 !! "u1" = Some (Example.row_u1 10 10 true).
Proof. vm_compute. repeat split. Qed.

Example scenario_status :
  let r := fst (HEAD Example.u1 Example.at6) in
  status r = 200 /\ header "Upload-Offset" r = Some "6"
  /\ header "Upload-Length" r = Some "10".
Proof. vm_compute. repeat split. Qed.

(** ** Headers of the answers *)

Lemma header_Upload_Offset code text value :
  header "Upload-Offset"
    (Response code text (getCorsHeaders ++ [("Upload-Offset", value)])%list)
  = Some value.
Proof. reflexivity. Qed.

Lemma byteLength_pos (data : bytes) : data <> [] -> (0 <? byteLength data) = true.
Proof.
  intros H. apply Z.ltb_lt. unfold byteLength.
  destruct data; [congruence | cbn [List.length]; lia].
Qed.

Lemma byteLength_nil_or_pos (data : bytes) :
  (0 <? byteLength data) = false -> data = [].
Proof.
  destruct data; [reflexivity|]. intros H. apply Z.ltb_ge in H.
  unfold byteLength in H. cbn [List.length] in H. lia.
Qed.

Lemma read_meta_written f tbl rows uploadId m :
  read_meta (State (<[metadataPath uploadId := Json m []]> f) tbl rows) uploadId
  = Some m.
Proof. unfold read_meta. cbn [fs]. now rewrite lookup_insert_eq. Qed.

(** The bytes of the upload after an accepted call, one equation for the
    empty and the non-empty payload. *)
Lemma stored_bytes_appended f tbl rows uploadId c (old data : bytes) :
  f !! filePath uploadId = Some (Raw old) ->
  stored_bytes
    (State (<[metadataPath uploadId := c]>
              (if 0 <? byteLength data
               then <[filePath uploadId :=
                        append_content (f !! filePath uploadId) data]> f
               else f)) tbl rows) uploadId
  = Some (old ++ data)%list.
Proof.
  intros Hold. unfold stored_bytes. cbn [fs].
  rewrite lookup_insert_ne by apply metadataPath_filePath.
  destruct (0 <? byteLength data) eqn:Hlen.
  - rewrite lookup_insert_eq, Hold. reflexivity.
  - apply byteLength_nil_or_pos in Hlen as ->. rewrite Hold.
    now rewrite app_nil_r.
Qed.

Lemma stored_bytes_Some st uploadId data :
  stored_bytes st uploadId = Some data -> fs st !! filePath uploadId = Some (Raw data).
Proof.
  unfold stored_bytes.
  destruct (fs st !! filePath uploadId) as [[bs|? ?]|]; congruence.
Qed.

(** ** Append: the claimed offset *)

(** C1: an Append on an existing session whose claimed offset differs from
    the stored offset is answered 409 "Offset mismatch", the answer carries
    the stored offset in [Upload-Offset], and nothing is written: the world,
    hence the stored offset and the stored bytes, is as before. *)
Theorem C1_offset_mismatch disk_ok req uploadId rest m st :
  uploadId <> "" ->
  read_meta st uploadId = Some m ->
  claimed_offset req <> Some (meta.offset m) ->
  let '(r, st') := PATCH disk_ok req (Some (uploadId :: rest)) st in
  status r = 409
  /\ body r = Some "Offset mismatch"
  /\ header "Upload-Offset" r = Some (String_ (meta.offset m))
  /\ st' = st
  /\ read_meta st' uploadId = Some m
  /\ stored_bytes st' uploadId = stored_bytes st uploadId.
Proof.
  intros Hid Hm Hoff. rewrite (PATCH_mismatch _ _ _ _ m) by assumption.
  repeat split; assumption.
Qed.

Lemma C1_offset_mismatch_witness :
  let '(r, st') :=
    PATCH true (Example.append (Some "3") Example.four) (Some ["u1"]) Example.at6 in
  status r = 409
  /\ body r = Some "Offset mismatch"
  /\ header "Upload-Offset" r = Some (String_ 6)
  /\ st' = Example.at6
  /\ read_meta st' "u1" = Some (Example.meta_u1 6)
  /\ stored_bytes st' "u1" = stored_bytes Example.at6 "u1".
Proof.
  apply (C1_offset_mismatch true (Example.append (Some "3") Example.four)
           "u1" [] (Example.meta_u1 6) Example.at6).
  - discriminate.
  - vm_compute. reflexivity.
  - vm_compute. discriminate.
Defined.

(** C10: an Append without the [Upload-Offset] header claims offset 0. On
    an existing session it is accepted exactly when the stored offset is 0:
    then the payload is appended to the stored bytes and the offset becomes
    its length; otherwise the answer is 409 "Offset mismatch" with the
    stored offset, and nothing is written. *)
Theorem C10_missing_offset_is_zero req uploadId rest m row old st :
  upload_offset req = None ->
  uploadId <> "" ->
  read_meta st uploadId = Some m ->
  files st !! uploadId = Some row ->
  stored_bytes st uploadId = Some old ->
  claimed_offset req = Some 0
  /\ let '(r, st') := PATCH true req (Some (uploadId :: rest)) st in
     (status r = 204 <-> meta.offset m = 0)
     /\ (meta.offset m = 0 ->
         header "Upload-Offset" r = Some (String_ (byteLength (payload req)))
         /\ stored_bytes st' uploadId = Some (old ++ payload req)%list
         /\ meta.offset <$> read_meta st' uploadId = Some (byteLength (payload req)))
     /\ (meta.offset m <> 0 ->
         status r = 409
         /\ body r = Some "Offset mismatch"
         /\ header "Upload-Offset" r = Some (String_ (meta.offset m))
         /\ st' = st).
Proof.
  intros Hhdr Hid Hm Hrow Hold.
  assert (claimed_offset req = Some 0) as Hclaim
    by (unfold claimed_offset; now rewrite Hhdr).
  split; [exact Hclaim|].
  destruct (decide (meta.offset m = 0)) as [H0|H0].
  - rewrite (PATCH_accepted _ _ _ _ m) by congruence. cbv zeta.
    rewrite andb_false_r, Hrow, H0, Z.add_0_l.
    split; [split; reflexivity|].
    split; [intros _ | intros Hne; congruence].
    split; [apply header_Upload_Offset|].
    split.
    + apply stored_bytes_appended, stored_bytes_Some, Hold.
    + now rewrite read_meta_written.
  - rewrite (PATCH_mismatch _ _ _ _ m) by congruence.
    split; [split; [discriminate | intros; contradiction]|].
    split; [intros; contradiction | intros _].
    repeat split.
Qed.

Lemma C10_missing_offset_is_zero_witness :
  claimed_offset (Example.append None Example.six) = Some 0
  /\ let '(r, st') :=
       PATCH true (Example.append None Example.six) (Some ["u1"]) Example.at0 in
     (status r = 204 <-> meta.offset (Example.meta_u1 0) = 0)
     /\ (meta.offset (Example.meta_u1 0) = 0 ->
         header "Upload-Offset" r = Some (String_ (byteLength Example.six))
         /\ stored_bytes st' "u1" = Some ([] ++ Example.six)%list
         /\ meta.offset <$> read_meta st' "u1" = Some (byteLength Example.six))
     /\ (meta.offset (Example.meta_u1 0) <> 0 ->
         status r = 409
         /\ body r = Some "Offset mismatch"
         /\ header "Upload-Offset" r = Some (String_ (meta.offset (Example.meta_u1 0)))
         /\ st' = Example.at0).
Proof.
  apply (C10_missing_offset_is_zero (Example.append None Example.six) "u1" []
           (Example.meta_u1 0) (Example.row_u1 10 0 false) [] Example.at0).
  - reflexivity.
  - discriminate.
  - vm_compute. reflexivity.
  - vm_compute. reflexivity.
  - vm_compute. reflexivity.
Defined.

(** ** Append: a failing disk *)

Lemma read_meta_torn io uploadId data st :
  read_meta (torn io (filePath uploadId) data st) uploadId = read_meta st uploadId.
Proof.
  destruct io as [| |written]; cbn [torn]; try reflexivity.
  unfold read_meta, set_fs. cbn [fs].
  now rewrite lookup_insert_ne
    by (intros E; symmetry in E; exact (metadataPath_filePath _ E)).
Qed.

Lemma stored_bytes_torn io uploadId data old st :
  accepts io = false ->
  stored_bytes st uploadId = Some old ->
  stored_bytes (torn io (filePath uploadId) data st) uploadId
  = Some (old ++ written_by io data)%list.
Proof.
  intros Hio Hold. destruct io as [| |written]; [discriminate| |];
    cbn [torn written_by].
  - now rewrite app_nil_r.
  - apply stored_bytes_Some in Hold. unfold stored_bytes, set_fs. cbn [fs].
    now rewrite lookup_insert_eq, Hold.
Qed.

Lemma torn_fs_other io p data st q :
  q <> p -> fs (torn io p data st) !! q = fs st !! q.
Proof.
  intros Hq. destruct io as [| |written]; cbn [torn]; try reflexivity.
  unfold set_fs. cbn [fs]. now apply lookup_insert_ne.
Qed.

(** C8, as stated, fails: the failed append is not atomic. On the session
    holding six bytes, an Append of four bytes whose write throws after two
    of them is answered 500 and leaves the offset at 6, but the two bytes
    stay in the file: the world is not the one before the call. The same
    request sent again is answered 204 with offset 10 and marks the upload
    complete, while the file holds twelve bytes. *)
Lemma C8_torn_append_keeps_written_bytes :
  let req := Example.append (Some "6") Example.four in
  let '(r, st') := PATCH (FailsAfter 2) req Example.u1 Example.at6 in
  status r = 500
  /\ read_meta st' "u1" = Some (Example.meta_u1 6)
  /\ stored_bytes Example.at6 "u1" = Some Example.six
  /\ stored_bytes st' "u1" = Some (Example.six ++ [x07; x08])%list
  /\ st' <> Example.at6
  /\ let '(r2, st2) := PATCH true req Example.u1 st' in
     status r2 = 204
     /\ header "Upload-Offset" r2 = Some "10"
     /\ read_meta st2 "u1" = Some (Example.meta_u1 10)
     /\ complete st2 "u1" = Some true
     /\ stored_bytes st2 "u1"
        = Some (Example.six ++ [x07; x08] ++ Example.four)%list.
Proof.
  vm_compute. repeat (split; [reflexivity|]).
  split; [|repeat split].
  intros H. apply (f_equal (fun w => stored_bytes w "u1")) in H.
  vm_compute in H. discriminate.
Qed.

(** C8, amended: when the append of a non-empty payload throws, the answer
    is 500 and the side record (the stored offset in particular), the tables
    and every other file are as before, but the part of the payload that was
    written before the failure stays in the file of the upload: the world is
    unchanged exactly when nothing was written. The same request sent again,
    once the storage accepts the append, is answered 204 with the offset
    advanced by the length of the payload; the file then holds the old
    bytes, the part written by the failed call, and the payload. *)
Theorem C8_failed_append_keeps_offset io req uploadId rest m row old st :
  accepts io = false ->
  uploadId <> "" ->
  read_meta st uploadId = Some m ->
  files st !! uploadId = Some row ->
  stored_bytes st uploadId = Some old ->
  claimed_offset req = Some (meta.offset m) ->
  payload req <> [] ->
  let '(r, st') := PATCH io req (Some (uploadId :: rest)) st in
  status r = 500
  /\ read_meta st' uploadId = Some m
  /\ files st' = files st
  /\ transfers st' = transfers st
  /\ (forall p, p <> filePath uploadId -> fs st' !! p = fs st !! p)
  /\ stored_bytes st' uploadId = Some (old ++ written_by io (payload req))%list
  /\ (st' = st <-> written_by io (payload req) = [])
  /\ let '(r2, st2) := PATCH true req (Some (uploadId :: rest)) st' in
     status r2 = 204
     /\ header "Upload-Offset" r2
        = Some (String_ (meta.offset m + byteLength (payload req)))
     /\ meta.offset <$> read_meta st2 uploadId
        = Some (meta.offset m + byteLength (payload req))
     /\ stored_bytes st2 uploadId
        = Some (old ++ written_by io (payload req) ++ payload req)%list.
Proof.
  intros Hio Hid Hm Hrow Hold Hclaim Hdata.
  rewrite (PATCH_accepted io _ _ _ m) by assumption. cbv zeta.
  rewrite byteLength_pos by assumption. rewrite Hio. cbn [andb negb].
  set (st' := torn io (filePath uploadId) (payload req) st).
  assert (read_meta st' uploadId = Some m) as Hm'
    by (unfold st'; now rewrite read_meta_torn).
  assert (stored_bytes st' uploadId = Some (old ++ written_by io (payload req))%list)
    as Hold' by (now apply stored_bytes_torn).
  split; [reflexivity|]. split; [exact Hm'|].
  split; [apply torn_files|]. split; [apply torn_transfers|].
  split; [intros p Hp; now apply torn_fs_other|].
  split; [exact Hold'|].
  split.
  { split.
    - intros E. rewrite E, Hold in Hold'. injection Hold' as Hold'.
      rewrite <- (app_nil_r old) in Hold' at 1. symmetry.
      exact (app_inv_head _ _ _ Hold').
    - unfold st'. destruct io as [| |written]; [discriminate|reflexivity|].
      cbn [written_by torn]. intros ->.
      apply stored_bytes_Some in Hold. destruct st as [dir tbl rows].
      unfold set_fs. cbn [fs files transfers] in *. rewrite Hold.
      cbn [append_content]. rewrite app_nil_r. f_equal.
      now apply insert_id. }
  rewrite (PATCH_accepted true _ _ _ m) by assumption. cbv zeta.
  rewrite accepts_bool, andb_false_r. unfold st' at 1. rewrite torn_files, Hrow.
  split; [reflexivity|]. split; [apply header_Upload_Offset|].
  split; [now rewrite read_meta_written|].
  rewrite app_assoc. apply stored_bytes_appended, stored_bytes_Some, Hold'.
Qed.

Lemma C8_failed_append_keeps_offset_witness :
  let req := Example.append (Some "6") Example.four in
  let '(r, st') := PATCH (FailsAfter 2) req (Some ["u1"]) Example.at6 in
  status r = 500
  /\ read_meta st' "u1" = Some (Example.meta_u1 6)
  /\ files st' = files Example.at6
  /\ transfers st' = transfers Example.at6
  /\ (forall p, p <> filePath "u1" -> fs st' !! p = fs Example.at6 !! p)
  /\ stored_bytes st' "u1"
     = Some (Example.six ++ written_by (FailsAfter 2) Example.four)%list
  /\ (st' = Example.at6 <-> written_by (FailsAfter 2) Example.four = [])
  /\ let '(r2, st2) := PATCH true req (Some ["u1"]) st' in
     status r2 = 204
     /\ header "Upload-Offset" r2 = Some (String_ (6 + byteLength Example.four))
     /\ meta.offset <$> read_meta st2 "u1" = Some (6 + byteLength Example.four)
     /\ stored_bytes st2 "u1"
        = Some (Example.six ++ written_by (FailsAfter 2) Example.four
                ++ Example.four)%list.
Proof.
  apply (C8_failed_append_keeps_offset (FailsAfter 2)
           (Example.append (Some "6") Example.four)
           "u1" [] (Example.meta_u1 6) (Example.row_u1 10 6 false)
           Example.six Example.at6).
  - reflexivity.
  - discriminate.
  - vm_compute. reflexivity.
  - vm_compute. reflexivity.
  - vm_compute. reflexivity.
  - vm_compute. reflexivity.
  - discriminate.
Defined.

(** ** Cancel *)

(** C9: DELETE with a plain identifier (one that [join] leaves alone, as
    every identifier that POST issues: the two paths of the handler are then
    the two entries of the upload in the upload directory) removes the side
    record, the stored bytes and the row of the file, and answers 204 with
    the same response whatever was there before; a second DELETE of the same
    identifier gives the same answer and changes nothing. *)
Theorem C9_cancel_idempotent uploadId rest st :
  plain_name uploadId = true ->
  path_join uploadId = Place 0 [filePath uploadId]
  /\ path_join (uploadId +:+ ".json") = Place 0 [metadataPath uploadId]
  /\ let '(r, st') := DELETE (Some (uploadId :: rest)) st in
     r = Response 204 None getCorsHeaders
     /\ fs st' !! metadataPath uploadId = None
     /\ fs st' !! filePath uploadId = None
     /\ files st' !! uploadId = None
     /\ read_meta st' uploadId = None
     /\ DELETE (Some (uploadId :: rest)) st' = (r, st').
Proof.
  intros Hplain.
  split; [now apply filePath_plain|]. split; [now apply metadataPath_plain|].
  apply plain_name_nonempty in Hplain as Hid.
  rewrite DELETE_run by assumption.
  assert (delete (metadataPath uploadId) (delete (filePath uploadId) (fs st))
            !! filePath uploadId = None) as Hblob.
  { rewrite lookup_delete_ne by apply metadataPath_filePath.
    apply lookup_delete_eq. }
  split; [reflexivity|]. cbn [fs files].
  split; [apply lookup_delete_eq|].
  split; [exact Hblob|].
  split; [apply lookup_delete_eq|].
  split; [unfold read_meta; cbn [fs]; now rewrite lookup_delete_eq|].
  rewrite DELETE_run by assumption. cbn [fs files transfers].
  set (dir := delete (metadataPath uploadId) (delete (filePath uploadId) (fs st))) in *.
  set (rows := delete uploadId (files st)).
  rewrite (delete_id dir (filePath uploadId)) by exact Hblob.
  rewrite (delete_id dir (metadataPath uploadId)) by apply lookup_delete_eq.
  rewrite (delete_id rows uploadId) by apply lookup_delete_eq.
  reflexivity.
Qed.

Lemma C9_cancel_idempotent_witness :
  path_join "u1" = Place 0 [filePath "u1"]
  /\ path_join ("u1" +:+ ".json") = Place 0 [metadataPath "u1"]
  /\ let '(r, st') := DELETE (Some ["u1"]) Example.at6 in
     r = Response 204 None getCorsHeaders
     /\ fs st' !! metadataPath "u1" = None
     /\ fs st' !! filePath "u1" = None
     /\ files st' !! "u1" = None
     /\ read_meta st' "u1" = None
     /\ DELETE (Some ["u1"]) st' = (r, st').
Proof.
  apply (C9_cancel_idempotent "u1" [] Example.at6). reflexivity.
Defined.

(** ** Append: calls that overlap *)

(** The first part of PATCH only reads. *)
Lemma PATCH_begin_state req path st : snd (PATCH_begin req path st) = st.
Proof.
  unfold PATCH_begin, try_catch, internal_error.
  destruct (truthy (first_segment path)) as [uploadId|]; [|reflexivity].
  cbv beta iota zeta delta [mbind M_bind mret M_ret throw existsSync readFileSync JSON_parse].
  destruct (bool_decide (is_Some (fs st !! metadataPath uploadId))); cbn [negb];
    [|reflexivity].
  cbv beta iota.
  destruct (fs st !! metadataPath uploadId) as [[data|m tail]|]; try reflexivity.
  destruct (forallb isJsonWhiteSpace tail); [|reflexivity].
  cbv beta iota. destruct (bool_decide _); reflexivity.
Qed.

(** PATCH is its first part, followed by its second part when the first one
    has not answered. *)
Lemma PATCH_split disk_ok req path st :
  PATCH disk_ok req path st =
    match PATCH_begin req path st with
    | (inl r, st1) => (r, st1)
    | (inr p, st1) => PATCH_resume disk_ok req p st1
    end.
Proof.
  unfold PATCH, PATCH_begin, PATCH_resume, try_catch, internal_error.
  destruct (truthy (first_segment path)) as [uploadId|]; [|reflexivity].
  cbv beta iota zeta delta [mbind M_bind mret M_ret throw existsSync readFileSync JSON_parse].
  destruct (bool_decide (is_Some (fs st !! metadataPath uploadId))); cbn [negb];
    [|reflexivity].
  cbv beta iota.
  destruct (fs st !! metadataPath uploadId) as [[data|m tail]|]; try reflexivity.
  destruct (forallb isJsonWhiteSpace tail); [|reflexivity].
  cbv beta iota. destruct (bool_decide _); reflexivity.
Qed.

Lemma PATCH_begin_accepted req uploadId rest m st :
  uploadId <> "" ->
  read_meta st uploadId = Some m ->
  claimed_offset req = Some (meta.offset m) ->
  PATCH_begin req (Some (uploadId :: rest)) st = (inr (Pending uploadId m), st).
Proof.
  intros Hid Hm Hoff. apply read_meta_Some in Hm as (tail & Hfs & Hws).
  unfold PATCH_begin, try_catch, first_segment. cbn [mbind option_bind head].
  rewrite truthy_Some by assumption.
  cbv beta iota zeta delta [mbind M_bind mret M_ret throw existsSync readFileSync JSON_parse].
  rewrite Hfs. rewrite bool_decide_true by eauto. cbn [negb]. cbv beta iota.
  rewrite Hfs, Hws. cbv beta iota.
  fold (claimed_offset req). now rewrite bool_decide_true by assumption.
Qed.

(** The second part, on a disk that takes the chunk: it writes from the
    side record [m] that the first part has read, whatever the directory
    holds by now. *)
Lemma PATCH_resume_run req uploadId m row st :
  files st !! uploadId = Some row ->
  PATCH_resume true req (Pending uploadId m) st =
    let data := payload req in
    let n := meta.offset m + byteLength data in
    let fs1 := if 0 <? byteLength data
               then <[filePath uploadId :=
                        append_content (fs st !! filePath uploadId) data]> (fs st)
               else fs st in
    (Response 204 None (getCorsHeaders ++ [("Upload-Offset", String_ n)])%list,
     State (<[metadataPath uploadId := Json (meta.with_offset m n) []]> fs1)
       (transfers st)
       (<[uploadId := (if n >=? default 0 (meta.size m)
                       then mark_complete n else mark_progress n) row]>
          (files st))).
Proof.
  intros Hrow. destruct st as [dir tbl rows]. cbn [fs files transfers] in *.
  unfold PATCH_resume, try_catch. cbn [pending_uploadId pending_meta].
  cbv beta iota zeta delta
    [mbind M_bind mret M_ret throw writeFileSync appendFileSync
     prisma_file_update disk_of_bool].
  destruct (0 <? byteLength (payload req)); cbv beta iota;
    unfold set_fs, set_files; cbn [fs files transfers meta.size meta.with_offset];
    destruct (meta.offset m + byteLength (payload req) >=? default 0 (meta.size m));
    cbv beta iota; unfold set_files; cbn [fs files transfers];
    rewrite Hrow; reflexivity.
Qed.

(** Two Appends at the stored offset that overlap are both answered 204.
    The second one to write stores the offset that it computed from the side
    record read at the start: the stored offset, which the first one had
    advanced by the length of its chunk, ends advanced by the length of the
    second chunk only, while the file holds both chunks. *)
Lemma overlapping_appends a b uploadId rest m row old st :
  uploadId <> "" ->
  read_meta st uploadId = Some m ->
  files st !! uploadId = Some row ->
  stored_bytes st uploadId = Some old ->
  claimed_offset a = Some (meta.offset m) ->
  claimed_offset b = Some (meta.offset m) ->
  exists ra st1 rb st2,
    overlapped a b (Some (uploadId :: rest)) st = Some ((ra, st1), (rb, st2))
    /\ status ra = 204
    /\ status rb = 204
    /\ meta.offset <$> read_meta st1 uploadId
       = Some (meta.offset m + byteLength (payload a))
    /\ meta.offset <$> read_meta st2 uploadId
       = Some (meta.offset m + byteLength (payload b))
    /\ stored_bytes st2 uploadId = Some (old ++ payload a ++ payload b)%list.
Proof.
  intros Hid Hm Hrow Hold Ha Hb. unfold overlapped.
  rewrite (PATCH_begin_accepted a _ _ m), (PATCH_begin_accepted b _ _ m)
    by assumption.
  rewrite (PATCH_resume_run a _ _ row) by assumption. cbv beta iota zeta.
  set (st1 := State _ _ _).
  assert (stored_bytes st1 uploadId = Some (old ++ payload a)%list) as Hold1
    by (apply stored_bytes_appended, stored_bytes_Some, Hold).
  erewrite (PATCH_resume_run b) by (cbn [st1 files]; apply lookup_insert_eq).
  cbv zeta. do 4 eexists. split; [reflexivity|].
  split; [reflexivity|]. split; [reflexivity|].
  split; [unfold st1; now rewrite read_meta_written|].
  split; [now rewrite read_meta_written|].
  rewrite app_assoc. apply stored_bytes_appended, stored_bytes_Some, Hold1.
Qed.

(** Overlapping Appends can lower the stored offset: when the chunk of the
    second writer is the shorter one, the offset that the first writer
    stored is replaced by a smaller one. *)
Lemma overlapping_appends_lower_offset a b uploadId rest m row old st :
  uploadId <> "" ->
  read_meta st uploadId = Some m ->
  files st !! uploadId = Some row ->
  stored_bytes st uploadId = Some old ->
  claimed_offset a = Some (meta.offset m) ->
  claimed_offset b = Some (meta.offset m) ->
  byteLength (payload b) < byteLength (payload a) ->
  exists ra st1 rb st2 m1 m2,
    overlapped a b (Some (uploadId :: rest)) st = Some ((ra, st1), (rb, st2))
    /\ read_meta st1 uploadId = Some m1
    /\ read_meta st2 uploadId = Some m2
    /\ meta.offset m2 < meta.offset m1.
Proof.
  intros Hid Hm Hrow Hold Ha Hb Hlen.
  destruct (overlapping_appends a b uploadId rest m row old st)
    as (ra & st1 & rb & st2 & E & _ & _ & H1 & H2 & _); try assumption.
  destruct (read_meta st1 uploadId) as [m1|] eqn:E1; [|discriminate].
  destruct (read_meta st2 uploadId) as [m2|] eqn:E2; [|discriminate].
  change (Some (meta.offset m1) = Some (meta.offset m + byteLength (payload a))) in H1.
  change (Some (meta.offset m2) = Some (meta.offset m + byteLength (payload b))) in H2.
  injection H1 as H1. injection H2 as H2.
  exists ra, st1, rb, st2, m1, m2. repeat split; try assumption. lia.
Qed.

(** On the new upload [u1], an Append of six bytes and an Append of four
    bytes, both at offset 0, overlap: both are answered 204, the stored
    offset goes to 6 and then back to 4, and the file holds ten bytes. *)
Example overlapped_at0 :
  exists ra st1 rb st2,
    overlapped (Example.append (Some "0") Example.six)
      (Example.append (Some "0") Example.four) Example.u1 Example.at0
    = Some ((ra, st1), (rb, st2))
    /\ status ra = 204
    /\ status rb = 204
    /\ read_meta st1 "u1" = Some (Example.meta_u1 6)
    /\ read_meta st2 "u1" = Some (Example.meta_u1 4)
    /\ stored_bytes st2 "u1" = Some Example.ten.
Proof. do 4 eexists. vm_compute. repeat split. Qed.

(** ** Append: the declared size *)

Lemma offsets_nonneg_at0 : offsets_nonneg Example.at0.
Proof.
  apply run_offsets_nonneg. intros uploadId m H.
  unfold read_meta in H. cbn [fs Example.world0] in H.
  rewrite lookup_empty in H. discriminate.
Qed.

(** An Append at the stored offset is accepted whatever the declared size:
    there is no test of the new offset against it before the writes. *)
Lemma PATCH_accepts_any_size req uploadId rest m row st :
  uploadId <> "" ->
  read_meta st uploadId = Some m ->
  files st !! uploadId = Some row ->
  claimed_offset req = Some (meta.offset m) ->
  let '(r, st') := PATCH true req (Some (uploadId :: rest)) st in
  status r = 204
  /\ meta.offset <$> read_meta st' uploadId
     = Some (meta.offset m + byteLength (payload req)).
Proof.
  intros Hid Hm Hrow Hclaim.
  rewrite (PATCH_accepted true _ _ _ m) by assumption. cbv zeta.
  rewrite andb_false_r, Hrow. split; [reflexivity|].
  now rewrite read_meta_written.
Qed.

(** C2, as stated, fails: on the session declared with ten bytes and holding
    six, an Append of ten more bytes at offset 6 is answered 204, and the
    stored offset becomes 16. *)
Lemma C2_oversized_append_accepted :
  let '(r, st') :=
    PATCH true (Example.append (Some "6") Example.ten) Example.u1 Example.at6 in
  status r = 204
  /\ header "Upload-Offset" r = Some "16"
  /\ read_meta st' "u1" = Some (Example.meta_u1 16)
  /\ meta.size (Example.meta_u1 16) = Some 10
  /\ stored_bytes st' "u1" = Some (Example.six ++ Example.ten)%list
  /\ ~ within_declared_size st'.
Proof.
  vm_compute. repeat (split; [reflexivity|]).
  intros H. specialize (H "u1" (Example.meta_u1 16) eq_refl).
  vm_compute in H. destruct H as [_ H]. apply H. reflexivity.
Qed.

(** C2, amended: along every sequence of calls that run one after another
    (each call has answered before the next one starts) and that does not
    create the session again, the stored offset of a session never
    decreases, and it is never negative; but it is not bounded by the
    declared size, since an Append at the stored offset is accepted whatever
    the declared size and advances the offset by the length of its payload.
    Calls that overlap are outside this statement: by
    [overlapping_appends_lower_offset] two overlapping Appends can lower the
    stored offset. *)
Theorem C2_offset_monotone base64_utf8 ops st uploadId m' :
  offsets_nonneg st ->
  existsb (issues uploadId) ops = false ->
  read_meta (run base64_utf8 ops st) uploadId = Some m' ->
  0 <= meta.offset m'
  /\ (exists m, read_meta st uploadId = Some m /\ meta.offset m <= meta.offset m')
  /\ forall req rest row,
       uploadId <> "" ->
       files (run base64_utf8 ops st) !! uploadId = Some row ->
       claimed_offset req = Some (meta.offset m') ->
       let '(r, st2) :=
         PATCH true req (Some (uploadId :: rest)) (run base64_utf8 ops st) in
       status r = 204
       /\ meta.offset <$> read_meta st2 uploadId
          = Some (meta.offset m' + byteLength (payload req)).
Proof.
  intros Hst Hfresh Hm'. split; [|split].
  - exact (run_offsets_nonneg base64_utf8 ops st Hst uploadId m' Hm').
  - exact (run_offset_monotone base64_utf8 ops st uploadId m' Hfresh Hm').
  - intros req rest row Hid Hrow Hclaim.
    now apply PATCH_accepts_any_size with (row := row).
Qed.

Lemma C2_offset_monotone_witness :
  let ops := [OpPATCH true (Example.append (Some "0") Example.six) Example.u1;
              OpHEAD Example.u1;
              OpPATCH true (Example.append (Some "6") Example.ten) Example.u1] in
  0 <= meta.offset (Example.meta_u1 16)
  /\ (exists m, read_meta Example.at0 "u1" = Some m
                /\ meta.offset m <= meta.offset (Example.meta_u1 16))
  /\ forall req rest row,
       "u1" <> "" ->
       files (run Example.base64 ops Example.at0) !! "u1" = Some row ->
       claimed_offset req = Some (meta.offset (Example.meta_u1 16)) ->
       let '(r, st2) :=
         PATCH true req (Some ("u1" :: rest)) (run Example.base64 ops Example.at0) in
       status r = 204
       /\ meta.offset <$> read_meta st2 "u1"
          = Some (meta.offset (Example.meta_u1 16) + byteLength (payload req)).
Proof.
  apply (C2_offset_monotone Example.base64
           [OpPATCH true (Example.append (Some "0") Example.six) Example.u1;
            OpHEAD Example.u1;
            OpPATCH true (Example.append (Some "6") Example.ten) Example.u1]
           Example.at0 "u1" (Example.meta_u1 16)).
  - exact offsets_nonneg_at0.
  - reflexivity.
  - vm_compute. reflexivity.
Defined.

(** ** Completion *)

Lemma complete_mark_complete f tbl rows uploadId n row :
  complete (State f tbl (<[uploadId := mark_complete n row]> rows)) uploadId
  = Some true.
Proof. unfold complete. cbn [files]. now rewrite lookup_insert_eq. Qed.

Lemma complete_mark_progress f tbl rows uploadId n row :
  complete (State f tbl (<[uploadId := mark_progress n row]> rows)) uploadId
  = Some (File.uploadComplete row).
Proof. unfold complete. cbn [files]. now rewrite lookup_insert_eq. Qed.

(** C3, as stated, fails: on the session declared with ten bytes and holding
    six, an Append of ten more bytes is accepted and marks the file complete
    although the stored offset, 16, is not the declared size. *)
Lemma C3_complete_beyond_declared_size :
  let '(r, st') :=
    PATCH true (Example.append (Some "6") Example.ten) Example.u1 Example.at6 in
  status r = 204
  /\ complete st' "u1" = Some true
  /\ meta.offset <$> read_meta st' "u1" = Some 16
  /\ meta.size <$> read_meta st' "u1" = Some (Some 10)
  /\ files st' !! "u1" = Some (Example.row_u1 16 16 true).
Proof. vm_compute. repeat split. Qed.

(** C3, amended: an accepted Append leaves the completion flag set exactly
    when the new offset is at least the declared size or the flag was set
    before; and once the flag is set, no sequence of calls that does not
    create the upload again resets it: wherever the row of the file still
    exists, its flag is set. *)
Theorem C3_completion_flag base64_utf8 disk_ok req uploadId rest m row st ops :
  uploadId <> "" ->
  read_meta st uploadId = Some m ->
  files st !! uploadId = Some row ->
  existsb (issues uploadId) ops = false ->
  let '(r, st') := PATCH disk_ok req (Some (uploadId :: rest)) st in
  (status r = 204 ->
   complete st' uploadId
   = Some ((meta.offset m + byteLength (payload req) >=? default 0 (meta.size m))
           || File.uploadComplete row))
  /\ (complete st' uploadId = Some true ->
      forall flag,
        complete (run base64_utf8 ops st') uploadId = Some flag -> flag = true).
Proof.
  intros Hid Hm Hrow Hfresh.
  destruct (PATCH disk_ok req (Some (uploadId :: rest)) st) as [r st'] eqn:Hrun.
  split.
  - intros Hok.
    destruct (decide (claimed_offset req = Some (meta.offset m))) as [Hc|Hc].
    + rewrite (PATCH_accepted _ _ _ _ m) in Hrun by assumption. cbv zeta in Hrun.
      destruct ((0 <? byteLength (payload req)) && negb (accepts disk_ok)).
      * injection Hrun as <- <-. discriminate.
      * rewrite Hrow in Hrun. injection Hrun as <- <-.
        destruct (_ >=? _); cbn [orb];
          [apply complete_mark_complete | apply complete_mark_progress].
    + rewrite (PATCH_mismatch _ _ _ _ m) in Hrun by assumption.
      injection Hrun as <- <-. discriminate.
  - unfold complete. intros Hset flag Hflag.
    destruct (files (run base64_utf8 ops st') !! uploadId) as [row'|] eqn:Hrow';
      [|discriminate].
    destruct (run_complete_stable _ _ _ _ _ Hfresh Hrow') as (row0 & Hrow0 & Hkeep).
    rewrite Hrow0 in Hset. cbn in Hset, Hflag.
    injection Hset as Hset. injection Hflag as <-. auto.
Qed.

Lemma C3_completion_flag_witness :
  let ops := [OpHEAD Example.u1;
              OpPATCH true (Example.append (Some "10") Example.six) Example.u1;
              OpPATCH true (Example.append (Some "3") Example.six) Example.u1] in
  let '(r, st') :=
    PATCH true (Example.append (Some "6") Example.four) (Some ["u1"]) Example.at6 in
  (status r = 204 ->
   complete st' "u1"
   = Some ((meta.offset (Example.meta_u1 6) + byteLength Example.four
              >=? default 0 (meta.size (Example.meta_u1 6)))
           || File.uploadComplete (Example.row_u1 10 6 false)))
  /\ (complete st' "u1" = Some true ->
      forall flag,
        complete (run Example.base64 ops st') "u1" = Some flag -> flag = true).
Proof.
  apply (C3_completion_flag Example.base64 true
           (Example.append (Some "6") Example.four) "u1" []
           (Example.meta_u1 6) (Example.row_u1 10 6 false) Example.at6
           [OpHEAD Example.u1;
            OpPATCH true (Example.append (Some "10") Example.six) Example.u1;
            OpPATCH true (Example.append (Some "3") Example.six) Example.u1]).
  - discriminate.
  - vm_compute. reflexivity.
  - vm_compute. reflexivity.
  - reflexivity.
Defined.

(** C4, as stated, fails: on the session whose ten declared bytes are all
    stored, an Append of four more bytes at offset 10 is answered 204; the
    bytes are appended and the stored offset becomes 14. *)
Lemma C4_append_after_completion_accepted :
  complete Example.at10 "u1" = Some true
  /\ read_meta Example.at10 "u1" = Some (Example.meta_u1 10)
  /\ let '(r, st') :=
       PATCH true (Example.append (Some "10") Example.four) Example.u1
         Example.at10 in
     status r = 204
     /\ header "Upload-Offset" r = Some "14"
     /\ stored_bytes st' "u1" = Some (Example.ten ++ Example.four)%list
     /\ read_meta st' "u1" = Some (Example.meta_u1 14)
     /\ st' <> Example.at10.
Proof.
  vm_compute. repeat (split; [reflexivity|]). discriminate.
Qed.

(** C4, amended: an Append against a session whose stored offset is its
    declared size is handled like any other Append. With another claimed
    offset it is answered 409 "Offset mismatch" and nothing is written; with
    the stored offset it is answered 204, the payload is appended to the
    stored bytes, the offset advances, and the row of the file is marked
    complete with the new offset as its size. *)
Theorem C4_append_on_complete_session req uploadId rest m row old st :
  uploadId <> "" ->
  read_meta st uploadId = Some m ->
  meta.size m = Some (meta.offset m) ->
  files st !! uploadId = Some row ->
  stored_bytes st uploadId = Some old ->
  let '(r, st') := PATCH true req (Some (uploadId :: rest)) st in
  (claimed_offset req <> Some (meta.offset m) ->
   status r = 409 /\ body r = Some "Offset mismatch"
   /\ header "Upload-Offset" r = Some (String_ (meta.offset m))
   /\ st' = st)
  /\ (claimed_offset req = Some (meta.offset m) ->
      let n := meta.offset m + byteLength (payload req) in
      status r = 204
      /\ header "Upload-Offset" r = Some (String_ n)
      /\ stored_bytes st' uploadId = Some (old ++ payload req)%list
      /\ meta.offset <$> read_meta st' uploadId = Some n
      /\ files st' !! uploadId = Some (mark_complete n row)).
Proof.
  intros Hid Hm Hsize Hrow Hold.
  destruct (decide (claimed_offset req = Some (meta.offset m))) as [Hc|Hc].
  - rewrite (PATCH_accepted _ _ _ _ m) by assumption. cbv zeta.
    rewrite andb_false_r, Hrow, Hsize.
    change (default 0 (Some (meta.offset m))) with (meta.offset m).
    replace (meta.offset m + byteLength (payload req) >=? meta.offset m) with true
      by (symmetry; apply Z.geb_le; unfold byteLength; lia).
    split; [intros Hne; contradiction | intros _].
    split; [reflexivity|]. split; [apply header_Upload_Offset|].
    split; [apply stored_bytes_appended, stored_bytes_Some, Hold|].
    split; [now rewrite read_meta_written|].
    cbn [files]. apply lookup_insert_eq.
  - rewrite (PATCH_mismatch _ _ _ _ m) by assumption.
    split; [intros _; repeat split | intros Heq; contradiction].
Qed.

Lemma C4_append_on_complete_session_witness :
  let req := Example.append (Some "10") Example.four in
  let '(r, st') := PATCH true req (Some ["u1"]) Example.at10 in
  (claimed_offset req <> Some (meta.offset (Example.meta_u1 10)) ->
   status r = 409 /\ body r = Some "Offset mismatch"
   /\ header "Upload-Offset" r = Some (String_ (meta.offset (Example.meta_u1 10)))
   /\ st' = Example.at10)
  /\ (claimed_offset req = Some (meta.offset (Example.meta_u1 10)) ->
      let n := meta.offset (Example.meta_u1 10) + byteLength (payload req) in
      status r = 204
      /\ header "Upload-Offset" r = Some (String_ n)
      /\ stored_bytes st' "u1" = Some (Example.ten ++ payload req)%list
      /\ meta.offset <$> read_meta st' "u1" = Some n
      /\ files st' !! "u1" = Some (mark_complete n (Example.row_u1 10 10 true))).
Proof.
  apply (C4_append_on_complete_session (Example.append (Some "10") Example.four)
           "u1" [] (Example.meta_u1 10) (Example.row_u1 10 10 true)
           Example.ten Example.at10).
  - discriminate.
  - vm_compute. reflexivity.
  - reflexivity.
  - vm_compute. reflexivity.
  - vm_compute. reflexivity.
Defined.

(** ** Create *)

Lemma header_Location_absent code text :
  header "Location" (Response code text getCorsHeaders) = None.
Proof. reflexivity. Qed.

(** C7, as stated, fails for a transfer that has expired: the row of the
    transfer is found, its expiry date and status are not read, and the
    upload is created. *)
Lemma C7_expired_transfer_accepted :
  transfers Example.expired_world !! "T" = Some (Transfer.mk 100 "deleted")
  /\ let now := 200 in
     let '(r, st') :=
       POST Example.base64 true "u1" now (Example.create "10" [])
         Example.expired_world in
     100 < now
     /\ status r = 201
     /\ header "Location" r = Some "https://example.org/api/tus/u1"
     /\ meta.offset <$> read_meta st' "u1" = Some 0
     /\ stored_bytes st' "u1" = Some []
     /\ File.transferId <$> files st' !! "u1" = Some "T".
Proof. vm_compute. repeat split. Qed.

(** C7, amended: a Create whose metadata names a parent transfer that does
    not exist is answered 404 "Transfer not found", without a location, and
    nothing is written: no side record, no stored bytes, no row. *)
Theorem C7_unknown_transfer_rejected
  base64_utf8 disk_ok uuid now req st transferId :
  transferId_of base64_utf8 req = Some transferId ->
  transfers st !! transferId = None ->
  let '(r, st') := POST base64_utf8 disk_ok uuid now req st in
  status r = 404
  /\ body r = Some "Transfer not found"
  /\ header "Location" r = None
  /\ st' = st.
Proof.
  intros Hname Hrow.
  rewrite (POST_unknown_transfer _ _ _ _ _ _ transferId) by assumption.
  repeat split.
Qed.

Lemma C7_unknown_transfer_rejected_witness :
  let req := Request (Some "10") None (Some "transferId WA==") None Example.six in
  let '(r, st') := POST Example.base64 true "u1" 5 req Example.world0 in
  status r = 404
  /\ body r = Some "Transfer not found"
  /\ header "Location" r = None
  /\ st' = Example.world0.
Proof.
  apply (C7_unknown_transfer_rejected Example.base64 true "u1" 5
           (Request (Some "10") None (Some "transferId WA==") None Example.six)
           Example.world0 "X").
  - vm_compute. reflexivity.
  - vm_compute. reflexivity.
Defined.

(** No test against [MAX_SIZE] stands between the declared length and the
    writes: any declared length that a number holds exactly creates the
    upload, also above [MAX_SIZE]. *)
Lemma POST_ignores_MAX_SIZE
  base64_utf8 uuid now req st transferId transfer size :
  transferId_of base64_utf8 req = Some transferId ->
  transfers st !! transferId = Some transfer ->
  files st !! uuid = None ->
  parseInt (or_default (upload_length req) "0") = Some size ->
  isSafeInteger size = true ->
  let '(r, st') := POST base64_utf8 true uuid now req st in
  status r = 201
  /\ meta.size <$> read_meta st' uuid = Some (Some size).
Proof.
  intros Hname Htransfer Hfree Hsize _.
  rewrite (POST_found _ _ _ _ _ _ transferId transfer) by assumption. cbv zeta.
  rewrite Hsize, Hfree.
  destruct (0 <? byteLength (payload req)); split; try reflexivity;
    now rewrite read_meta_written.
Qed.

(** C5: the code does not do what the claim says. A Create that declares
    one byte more than [MAX_SIZE] is answered 201 with a location, and the
    side record, the stored bytes and the row of the file are written; the
    same answer advertises [MAX_SIZE] in [Tus-Max-Size]. *)
Theorem C5_oversized_declaration_created :
  parseInt "107374182401" = Some (MAX_SIZE + 1)
  /\ let '(r, st') :=
       POST Example.base64 true "u2" 5 (Example.create "107374182401" [])
         Example.world0 in
     status r = 201
     /\ header "Tus-Max-Size" r = Some "107374182400"
     /\ header "Location" r = Some "https://example.org/api/tus/u2"
     /\ meta.size <$> read_meta st' "u2" = Some (Some (MAX_SIZE + 1))
     /\ stored_bytes st' "u2" = Some []
     /\ File.size <$> files st' !! "u2" = Some (MAX_SIZE + 1).
Proof. vm_compute. repeat split. Qed.

(** C6: the code does not do what the claim says. A Create that carries all
    four declared bytes is answered 201 with [Upload-Offset] 4, and the bytes
    and the offset are stored; but the row of the file is left incomplete at
    offset 0. The same bytes sent by an Append after an empty Create mark
    the row complete at offset 4. *)
Theorem C6_creation_with_upload_not_completed :
  (let '(r, st') :=
     POST Example.base64 true "u3" 5 (Example.create "4" Example.four)
       Example.world0 in
   status r = 201
   /\ header "Upload-Offset" r = Some "4"
   /\ stored_bytes st' "u3" = Some Example.four
   /\ meta.offset <$> read_meta st' "u3" = Some 4
   /\ meta.size <$> read_meta st' "u3" = Some (Some 4)
   /\ complete st' "u3" = Some false
   /\ File.uploadOffset <$> files st' !! "u3" = Some 0)
  /\ (let st2 :=
        run Example.base64
          [OpPOST true "u3" 5 (Example.create "4" []);
           OpPATCH true (Example.append (Some "0") Example.four) (Some ["u3"])]
          Example.world0 in
      stored_bytes st2 "u3" = Some Example.four
      /\ meta.offset <$> read_meta st2 "u3" = Some 4
      /\ complete st2 "u3" = Some true
      /\ File.uploadOffset <$> files st2 !! "u3" = Some 4).
Proof. vm_compute. repeat split. Qed.

(** * Further properties of the handlers *)

(** ** Offsets as text: [String] and [parseInt] *)

Lemma digit_pretty_N_char (d : N) :
  (d < 10)%N -> digit (pretty_N_char d) = Some (Z.of_N d).
Proof.
  intros H.
  assert (d = 0 \/ d = 1 \/ d = 2 \/ d = 3 \/ d = 4 \/ d = 5 \/ d = 6 \/ d = 7
          \/ d = 8 \/ d = 9)%N as Hd by lia.
  repeat (destruct Hd as [-> | Hd]; [reflexivity|]). now subst.
Qed.

(** Reading the decimal digits that [pretty_N_go] writes in front of [s]
    gives the number back, behind what was read before. *)
Lemma digits_pretty_N_go (x : N) :
  (0 < x)%N ->
  exists p, forall s acc,
    digits (pretty_N_go x s) acc
    = digits s (Some (p * default 0 acc + Z.of_N x)).
Proof.
  induction (N.lt_wf_0 x) as [x _ IH]. intros Hx.
  assert (x `mod` 10 < 10)%N as Hmod by (apply N.mod_lt; lia).
  assert (Z.of_N x = 10 * Z.of_N (x `div` 10) + Z.of_N (x `mod` 10)) as Hx10.
  { rewrite (N.div_mod x 10) at 1 by lia. lia. }
  destruct (decide (x `div` 10 = 0)%N) as [Hsmall|Hbig].
  - exists 10. intros s acc. rewrite pretty_N_go_step by assumption.
    rewrite Hsmall, pretty_N_go_0. cbn [digits].
    rewrite digit_pretty_N_char by assumption.
    f_equal. f_equal. rewrite Hx10, Hsmall. lia.
  - destruct (IH (x `div` 10)%N) as [p Hp]; [apply N.div_lt; lia | lia |].
    exists (10 * p). intros s acc. rewrite pretty_N_go_step by assumption.
    rewrite Hp. cbn [digits]. rewrite digit_pretty_N_char by assumption.
    f_equal. f_equal. cbn [default from_option]. unfold id. rewrite Hx10. lia.
Qed.

(** What [pretty_N_go] writes starts with a digit. *)
Lemma pretty_N_go_head (x : N) s :
  (0 < x)%N ->
  exists a r d, pretty_N_go x s = String a r /\ digit a = Some d.
Proof.
  revert s. induction (N.lt_wf_0 x) as [x _ IH]. intros s Hx.
  rewrite pretty_N_go_step by assumption.
  destruct (decide (x `div` 10 = 0)%N) as [Hsmall|Hbig].
  - rewrite Hsmall, pretty_N_go_0. do 3 eexists. split; [reflexivity|].
    apply digit_pretty_N_char. apply N.mod_lt. discriminate.
  - apply IH; [apply N.div_lt; lia | now apply N.neq_0_lt_0].
Qed.

Lemma parseInt_head_digit a r d :
  digit a = Some d -> parseInt (String a r) = digits (String a r) None.
Proof.
  intros H. destruct a as [[] [] [] [] [] [] [] []]; try discriminate H; reflexivity.
Qed.

Lemma pretty_positive_digits (p : positive) :
  exists a r d, pretty (N.pos p) = String a r /\ digit a = Some d
                /\ digits (String a r) None = Some (Z.pos p).
Proof.
  unfold pretty, pretty_N. destruct (decide (N.pos p = 0%N)) as [|_]; [lia|].
  destruct (pretty_N_go_head (N.pos p) "") as (a & r & d & Heq & Hd); [lia|].
  exists a, r, d. repeat split; try assumption.
  destruct (digits_pretty_N_go (N.pos p)) as [q Hq]; [lia|].
  rewrite <- Heq, Hq. cbn. f_equal. lia.
Qed.

Lemma parseInt_pretty (n : Z) : parseInt (String_ n) = Some n.
Proof.
  unfold String_, pretty, pretty_Z. destruct n as [|p|p].
  - reflexivity.
  - unfold pretty, pretty_positive.
    destruct (pretty_positive_digits p) as (a & r & d & -> & Hd & Hval).
    now rewrite (parseInt_head_digit a r d).
  - unfold pretty, pretty_positive.
    destruct (pretty_positive_digits p) as (a & r & d & -> & Hd & Hval).
    change ("-" +:+ String a r) with (String "-" (String a r)).
    unfold parseInt. cbn [trimStart]. change (isWhiteSpace "-") with false.
    cbv iota. now rewrite Hval.
Qed.

Lemma String_nonempty (n : Z) : String_ n <> "".
Proof.
  intros H. pose proof (parseInt_pretty n) as Hp. rewrite H in Hp. discriminate.
Qed.

(** A request that claims the offset written as [String n] claims [n]. *)
Lemma claimed_offset_String n chunk :
  claimed_offset (append_request (String_ n) chunk) = Some n.
Proof.
  unfold claimed_offset, append_request, or_default. cbn [upload_offset].
  destruct (decide (String_ n = "")) as [E|_]; [now apply String_nonempty in E|].
  apply parseInt_pretty.
Qed.

(** ** The answers that are left: no session, and status *)

(** Without a readable side record the answer is 404 when the side file is
    missing and 500 when it does not parse. *)
Lemma PATCH_no_session_answer disk_ok req uploadId rest st :
  uploadId <> "" ->
  read_meta st uploadId = None ->
  PATCH disk_ok req (Some (uploadId :: rest)) st
  = (if decide (fs st !! metadataPath uploadId = None)
     then Response 404 (Some "Upload not found") getCorsHeaders
     else internal_error (Some "Internal server error"), st).
Proof.
  intros Hid Hm. unfold read_meta, side_record in Hm. unfold_handler.
  unfold internal_error.
  destruct (fs st !! metadataPath uploadId) as [[data|m tail]|] eqn:Hfs.
  - rewrite bool_decide_true by eauto. cbn [negb]. cbv beta iota. rewrite Hfs.
    now destruct (decide _).
  - rewrite bool_decide_true by eauto. cbn [negb]. cbv beta iota. rewrite Hfs.
    destruct (forallb isJsonWhiteSpace tail); [discriminate|].
    now destruct (decide _).
  - rewrite bool_decide_false by (intros [? ?]; discriminate).
    now destruct (decide _).
Qed.

Lemma HEAD_path path st :
  HEAD path st =
    match truthy (first_segment path) with
    | Some uploadId => HEAD (Some [uploadId]) st
    | None => (Response 400 None getCorsHeaders, st)
    end.
Proof.
  unfold HEAD at 1. destruct (truthy (first_segment path)) as [uploadId|] eqn:E;
    [|reflexivity].
  apply truthy_inv in E as [_ Hid].
  unfold HEAD, first_segment. cbn [mbind option_bind head].
  now rewrite truthy_Some.
Qed.

Lemma HEAD_session uploadId rest m st :
  uploadId <> "" ->
  read_meta st uploadId = Some m ->
  HEAD (Some (uploadId :: rest)) st
  = (Response 200 None
       (getCorsHeaders ++
        [("Upload-Offset", String_ (meta.offset m));
         ("Upload-Length", String_nullable (meta.size m));
         ("Cache-Control", "no-store")])%list, st).
Proof.
  intros Hid Hm. apply read_meta_Some in Hm as (tail & Hfs & Hws).
  unfold_handler. rewrite Hfs.
  rewrite bool_decide_true by eauto. cbn [negb]. cbv beta iota.
  rewrite Hfs, Hws. reflexivity.
Qed.

Lemma HEAD_no_session uploadId rest st :
  uploadId <> "" ->
  read_meta st uploadId = None ->
  HEAD (Some (uploadId :: rest)) st
  = (if decide (fs st !! metadataPath uploadId = None)
     then Response 404 None getCorsHeaders
     else internal_error None, st).
Proof.
  intros Hid Hm. unfold read_meta, side_record in Hm. unfold_handler.
  unfold internal_error.
  destruct (fs st !! metadataPath uploadId) as [[data|m tail]|] eqn:Hfs.
  - rewrite bool_decide_true by eauto. cbn [negb]. cbv beta iota. rewrite Hfs.
    now destruct (decide _).
  - rewrite bool_decide_true by eauto. cbn [negb]. cbv beta iota. rewrite Hfs.
    destruct (forallb isJsonWhiteSpace tail); [discriminate|].
    now destruct (decide _).
  - rewrite bool_decide_false by (intros [? ?]; discriminate).
    now destruct (decide _).
Qed.

(** ** Resuming *)

(** X2: after an Append was refused for its offset, an Append that claims
    the offset reported in the refusal is accepted: its chunk is appended to
    the stored bytes and the offset advances by its length. *)
Theorem resume_from_reported_offset req uploadId rest m row old chunk st :
  uploadId <> "" ->
  read_meta st uploadId = Some m ->
  files st !! uploadId = Some row ->
  stored_bytes st uploadId = Some old ->
  claimed_offset req <> Some (meta.offset m) ->
  let '(r, st1) := PATCH true req (Some (uploadId :: rest)) st in
  status r = 409
  /\ exists reported,
       header "Upload-Offset" r = Some reported
       /\ let '(r2, st2) :=
            PATCH true (append_request reported chunk)
              (Some (uploadId :: rest)) st1 in
          status r2 = 204
          /\ stored_bytes st2 uploadId = Some (old ++ chunk)%list
          /\ meta.offset <$> read_meta st2 uploadId
             = Some (meta.offset m + byteLength chunk).
Proof.
  intros Hid Hm Hrow Hold Hoff.
  rewrite (PATCH_mismatch _ _ _ _ m) by assumption.
  split; [reflexivity|]. exists (String_ (meta.offset m)).
  split; [apply header_Upload_Offset|].
  rewrite (PATCH_accepted _ _ _ _ m)
    by (try apply claimed_offset_String; assumption).
  cbv zeta. rewrite andb_false_r, Hrow. cbn [payload append_request].
  split; [reflexivity|].
  split; [apply stored_bytes_appended, stored_bytes_Some, Hold|].
  now rewrite read_meta_written.
Qed.

Lemma resume_from_reported_offset_witness :
  let '(r, st1) :=
    PATCH true (Example.append (Some "0") Example.six) (Some ["u1"]) Example.at6 in
  status r = 409
  /\ exists reported,
       header "Upload-Offset" r = Some reported
       /\ let '(r2, st2) :=
            PATCH true (append_request reported Example.four) (Some ["u1"]) st1 in
          status r2 = 204
          /\ stored_bytes st2 "u1" = Some (Example.six ++ Example.four)%list
          /\ meta.offset <$> read_meta st2 "u1"
             = Some (meta.offset (Example.meta_u1 6) + byteLength Example.four).
Proof.
  apply (resume_from_reported_offset (Example.append (Some "0") Example.six)
           "u1" [] (Example.meta_u1 6) (Example.row_u1 10 6 false)
           Example.six Example.four Example.at6).
  - discriminate.
  - vm_compute. reflexivity.
  - vm_compute. reflexivity.
  - vm_compute. reflexivity.
  - vm_compute. discriminate.
Defined.

(** ** A whole upload, chunk by chunk *)

(** X3: a client that sends its chunks in order, starting at the stored
    offset and continuing at each reported offset, gets 204 for every chunk;
    afterwards the stored bytes are the previous ones followed by the chunks
    in order, and the stored offset has advanced by their total length. *)
Theorem send_chunks_stores_concatenation uploadId chunks : forall m row old st,
  uploadId <> "" ->
  read_meta st uploadId = Some m ->
  files st !! uploadId = Some row ->
  stored_bytes st uploadId = Some old ->
  let '(rs, st') := send_chunks uploadId (String_ (meta.offset m)) chunks st in
  List.length rs = List.length chunks
  /\ Forall (fun r => status r = 204) rs
  /\ stored_bytes st' uploadId = Some (old ++ concat chunks)%list
  /\ meta.offset <$> read_meta st' uploadId
     = Some (meta.offset m + byteLength (concat chunks)).
Proof.
  induction chunks as [|chunk chunks IH]; intros m row old st Hid Hm Hrow Hold;
    cbn [send_chunks concat].
  - rewrite app_nil_r, Hm.
    split; [reflexivity|]. split; [constructor|]. split; [assumption|].
    change (byteLength []) with 0. now rewrite Z.add_0_r.
  - rewrite (PATCH_accepted _ _ _ _ m)
      by (try apply claimed_offset_String; assumption).
    cbv zeta. rewrite andb_false_r, Hrow. cbn [payload append_request].
    rewrite header_Upload_Offset.
    set (n := meta.offset m + byteLength chunk).
    match goal with
    | |- context [send_chunks _ _ _ ?s] => set (st1 := s)
    end.
    assert (read_meta st1 uploadId = Some (meta.with_offset m n)) as Hm1
      by apply read_meta_written.
    assert (stored_bytes st1 uploadId = Some (old ++ chunk)%list) as Hold1
      by (apply stored_bytes_appended, stored_bytes_Some, Hold).
    assert (exists row1, files st1 !! uploadId = Some row1) as [row1 Hrow1]
      by (eexists; apply lookup_insert_eq).
    specialize (IH (meta.with_offset m n) row1 (old ++ chunk)%list st1
                  Hid Hm1 Hrow1 Hold1).
    cbn [meta.offset meta.with_offset] in IH.
    destruct (send_chunks uploadId (String_ n) chunks st1) as [rs st'].
    destruct IH as (Hlen & Hall & Hbytes & Hoff).
    split; [cbn [List.length]; now f_equal|].
    split; [constructor; [reflexivity | assumption]|].
    split; [now rewrite Hbytes, <- app_assoc|].
    rewrite Hoff. f_equal. unfold n, byteLength. rewrite length_app. lia.
Qed.

Lemma send_chunks_stores_concatenation_witness :
  let '(rs, st') :=
    send_chunks "u1" (String_ (meta.offset (Example.meta_u1 0)))
      [Example.six; []; Example.four] Example.at0 in
  List.length rs = List.length [Example.six; []; Example.four]
  /\ Forall (fun r => status r = 204) rs
  /\ stored_bytes st' "u1"
     = Some ([] ++ concat [Example.six; []; Example.four])%list
  /\ meta.offset <$> read_meta st' "u1"
     = Some (meta.offset (Example.meta_u1 0)
             + byteLength (concat [Example.six; []; Example.four])).
Proof.
  apply (send_chunks_stores_concatenation "u1" [Example.six; []; Example.four]
           (Example.meta_u1 0) (Example.row_u1 10 0 false) [] Example.at0).
  - discriminate.
  - vm_compute. reflexivity.
  - vm_compute. reflexivity.
  - vm_compute. reflexivity.
Defined.

(** ** Every answer of every handler *)

Section Answers.

Variable base64_utf8 : string -> string.

(** The headers of an answer are the CORS headers, followed by nothing, by
    the offset, by the location and the offset, or by the three headers of
    a status answer. *)
Lemma step_headers o st :
  let r := fst (step base64_utf8 o st) in
  headers r = getCorsHeaders
  \/ (exists v, headers r = (getCorsHeaders ++ [("Upload-Offset", v)])%list)
  \/ (exists l v, headers r
        = (getCorsHeaders ++ [("Location", l); ("Upload-Offset", v)])%list)
  \/ (exists v w, headers r
        = (getCorsHeaders ++ [("Upload-Offset", v); ("Upload-Length", w);
                              ("Cache-Control", "no-store")])%list).
Proof.
  cbv zeta.
  destruct o as [disk_ok uuid now req | disk_ok req path | path | path];
    cbn [step].
  - destruct (transferId_of base64_utf8 req) as [tid|] eqn:Htid;
      [|rewrite POST_no_transferId by assumption; now left].
    destruct (transfers st !! tid) as [t|] eqn:Ht;
      [|rewrite (POST_unknown_transfer _ _ _ _ _ _ tid) by assumption; now left].
    rewrite (POST_found _ _ _ _ _ _ tid t) by assumption. cbv zeta.
    destruct (parseInt _) as [size|], (files st !! uuid) as [row|],
      (0 <? byteLength (payload req)), disk_ok; cbn [fst headers internal_error];
      eauto 6.
  - rewrite PATCH_path.
    destruct (truthy (first_segment path)) as [uid|] eqn:E; [|now left].
    apply truthy_inv in E as [_ Hid].
    destruct (read_meta st uid) as [m|] eqn:Hm.
    + destruct (decide (claimed_offset req = Some (meta.offset m))) as [Hc|Hc].
      * rewrite (PATCH_accepted _ _ _ _ m) by assumption. cbv zeta.
        destruct ((0 <? byteLength (payload req)) && negb (accepts disk_ok)),
          (files st !! uid); cbn [fst headers internal_error]; eauto 6.
      * rewrite (PATCH_mismatch _ _ _ _ m) by assumption.
        cbn [fst headers]. eauto 6.
    + rewrite PATCH_no_session_answer by assumption.
      destruct (decide _); now left.
  - rewrite HEAD_path.
    destruct (truthy (first_segment path)) as [uid|] eqn:E; [|now left].
    apply truthy_inv in E as [_ Hid].
    destruct (read_meta st uid) as [m|] eqn:Hm.
    + rewrite (HEAD_session _ _ m) by assumption. cbn [fst headers]. eauto 8.
    + rewrite HEAD_no_session by assumption. destruct (decide _); now left.
  - rewrite DELETE_path.
    destruct (truthy (first_segment path)) as [uid|] eqn:E; [|now left].
    apply truthy_inv in E as [_ Hid]. rewrite DELETE_run by assumption. now left.
Qed.

(** X4: every answer of POST, PATCH, HEAD and DELETE, the errors included,
    carries each of the CORS and protocol headers of [getCorsHeaders] with
    its value: no header added by a handler overrides one of them. *)
Theorem every_answer_has_cors_headers o st :
  Forall (fun kv => header (fst kv) (fst (step base64_utf8 o st)) = Some (snd kv))
    getCorsHeaders.
Proof.
  pose proof (step_headers o st) as H. cbv zeta in H. unfold header.
  destruct H as [-> | [[v ->] | [(l & v & ->) | (v & w & ->)]]];
    repeat constructor.
Qed.

(** The status of an answer, and whether the call may have written. *)
Ltac in_list := cbn [In]; solve [repeat first [left; reflexivity | right]].

Ltac status_case :=
  cbn [fst snd status internal_error];
  first [ left; split; [in_list | reflexivity]
        | right; left; in_list
        | right; right; reflexivity ].

Lemma step_status_cases o st :
  let '(r, st') := step base64_utf8 o st in
  (In (status r) [200; 400; 404; 409] /\ st' = st)
  \/ In (status r) [201; 204]
  \/ status r = 500.
Proof.
  destruct o as [disk_ok uuid now req | disk_ok req path | path | path];
    cbn [step].
  - destruct (transferId_of base64_utf8 req) as [tid|] eqn:Htid;
      [|rewrite POST_no_transferId by assumption; status_case].
    destruct (transfers st !! tid) as [t|] eqn:Ht;
      [|rewrite (POST_unknown_transfer _ _ _ _ _ _ tid) by assumption;
        status_case].
    rewrite (POST_found _ _ _ _ _ _ tid t) by assumption. cbv zeta.
    destruct (parseInt _) as [size|], (files st !! uuid) as [row|],
      (0 <? byteLength (payload req)), disk_ok; status_case.
  - rewrite PATCH_path.
    destruct (truthy (first_segment path)) as [uid|] eqn:E; [|status_case].
    apply truthy_inv in E as [_ Hid].
    destruct (read_meta st uid) as [m|] eqn:Hm.
    + destruct (decide (claimed_offset req = Some (meta.offset m))) as [Hc|Hc].
      * rewrite (PATCH_accepted _ _ _ _ m) by assumption. cbv zeta.
        destruct ((0 <? byteLength (payload req)) && negb (accepts disk_ok)),
          (files st !! uid); status_case.
      * rewrite (PATCH_mismatch _ _ _ _ m) by assumption. status_case.
    + rewrite PATCH_no_session_answer by assumption.
      destruct (decide _); status_case.
  - rewrite HEAD_path.
    destruct (truthy (first_segment path)) as [uid|] eqn:E; [|status_case].
    apply truthy_inv in E as [_ Hid].
    destruct (read_meta st uid) as [m|] eqn:Hm.
    + rewrite (HEAD_session _ _ m) by assumption. status_case.
    + rewrite HEAD_no_session by assumption. destruct (decide _); status_case.
  - rewrite DELETE_path.
    destruct (truthy (first_segment path)) as [uid|] eqn:E; [|status_case].
    apply truthy_inv in E as [_ Hid]. rewrite DELETE_run by assumption.
    status_case.
Qed.

(** X5: a call that is answered 400, 404 or 409 (or 200, the status answer)
    has written nothing: the upload directory and both tables are as
    before. Only a call answered 201, 204 or 500 can have written, and no
    other status is ever answered. *)
Theorem client_error_writes_nothing o st :
  let '(r, st') := step base64_utf8 o st in
  In (status r) [200; 201; 204; 400; 404; 409; 500]
  /\ (In (status r) [200; 400; 404; 409] -> st' = st).
Proof.
  pose proof (step_status_cases o st) as H.
  destruct (step base64_utf8 o st) as [r st'].
  destruct H as [[Hin ->] | [Hin | H500]].
  - split; [|reflexivity]. cbn [In] in *. tauto.
  - split; [cbn [In] in *; tauto|].
    cbn [In] in *. intros Hs. exfalso.
    destruct Hin as [Hin | [Hin | []]];
      destruct Hs as [Hs | [Hs | [Hs | [Hs | []]]]]; congruence.
  - split; rewrite H500; [in_list|].
    cbn [In]. intros Hs. exfalso.
    destruct Hs as [Hs | [Hs | [Hs | [Hs | []]]]]; discriminate.
Qed.

End Answers.

(** ** One upload does not disturb another *)

Section Isolation.

Variable base64_utf8 : string -> string.

(** A call without an identifier writes nothing. *)
Lemma step_no_id o st :
  op_id o = None -> snd (step base64_utf8 o st) = st.
Proof.
  destruct o as [disk_ok uuid now req | disk_ok req path | path | path];
    cbn [op_id step]; intros H; [discriminate | | apply HEAD_state |].
  - rewrite PATCH_path. now rewrite H.
  - rewrite DELETE_path. now rewrite H.
Qed.

(** A call on [uploadId] writes the two files of [uploadId] and no other. *)
Lemma step_fs_frame o st uploadId p :
  op_id o = Some uploadId ->
  p <> filePath uploadId ->
  p <> metadataPath uploadId ->
  fs (snd (step base64_utf8 o st)) !! p = fs st !! p.
Proof.
  intros Hop Hblob Hside.
  destruct o as [disk_ok uuid now req | disk_ok req path | path | path];
    cbn [op_id step] in *.
  - injection Hop as ->.
    destruct (POST_fs_lookup base64_utf8 disk_ok uploadId now req st p)
      as [E | [[data E] | [E _]]]; [exact E | | contradiction].
    destruct (transferId_of base64_utf8 req) as [tid|] eqn:Htid;
      [|now rewrite POST_no_transferId by assumption].
    destruct (transfers st !! tid) as [t|] eqn:Ht;
      [|now rewrite (POST_unknown_transfer _ _ _ _ _ _ tid) by assumption].
    rewrite (POST_found _ _ _ _ _ _ tid t) by assumption. cbv zeta.
    destruct (parseInt _) as [size|], (files st !! uploadId) as [row|],
      (0 <? byteLength (payload req)), disk_ok;
      cbn [snd fs accepts torn set_fs];
      now rewrite ?lookup_insert_ne by congruence.
  - rewrite PATCH_path, Hop. apply truthy_inv in Hop as [_ Hid].
    destruct (read_meta st uploadId) as [m|] eqn:Hm;
      [|now rewrite PATCH_no_session by assumption].
    destruct (decide (claimed_offset req = Some (meta.offset m))) as [Hc|Hc];
      [|now rewrite (PATCH_mismatch _ _ _ _ m) by assumption].
    rewrite (PATCH_accepted _ _ _ _ m) by assumption. cbv zeta.
    destruct ((0 <? byteLength (payload req)) && negb (accepts disk_ok));
      [cbn [snd]; now apply torn_fs_other|].
    destruct (files st !! uploadId), (0 <? byteLength (payload req));
      cbn [snd fs]; now rewrite ?lookup_insert_ne by congruence.
  - now rewrite HEAD_state.
  - rewrite DELETE_path, Hop. apply truthy_inv in Hop as [_ Hid].
    rewrite DELETE_run by assumption. cbn [snd fs].
    now rewrite !lookup_delete_ne by congruence.
Qed.

(** A call on [uploadId] writes the row of [uploadId] and no other. *)
Lemma step_files_frame o st uploadId id :
  op_id o = Some uploadId ->
  id <> uploadId ->
  files (snd (step base64_utf8 o st)) !! id = files st !! id.
Proof.
  intros Hop Hne.
  destruct o as [disk_ok uuid now req | disk_ok req path | path | path];
    cbn [op_id step] in *.
  - injection Hop as ->.
    destruct (POST_files_lookup base64_utf8 disk_ok uploadId now req st id)
      as [E | [E _]]; [exact E | contradiction].
  - rewrite PATCH_path, Hop. apply truthy_inv in Hop as [_ Hid].
    destruct (read_meta st uploadId) as [m|] eqn:Hm;
      [|now rewrite PATCH_no_session by assumption].
    destruct (decide (claimed_offset req = Some (meta.offset m))) as [Hc|Hc];
      [|now rewrite (PATCH_mismatch _ _ _ _ m) by assumption].
    rewrite (PATCH_accepted _ _ _ _ m) by assumption. cbv zeta.
    destruct ((0 <? byteLength (payload req)) && negb (accepts disk_ok));
      [cbn [snd]; now rewrite torn_files|].
    destruct (files st !! uploadId); cbn [snd files]; [|reflexivity].
    now apply lookup_insert_ne.
  - now rewrite HEAD_state.
  - rewrite DELETE_path, Hop. apply truthy_inv in Hop as [_ Hid].
    rewrite DELETE_run by assumption. cbn [snd files].
    now apply lookup_delete_ne.
Qed.

(** X6: a call on one upload leaves every other upload as it was, its side
    record, its stored bytes and its row, provided both identifiers are
    plain (so that [join] names the entries of each upload and nothing
    else; an identifier with dot segments can name the files of another
    upload) and neither identifier is the name of the other's side file
    (identifiers issued by POST are plain and have no [.json] suffix). The
    two paths that the call builds are then not the paths of the other
    upload. *)
Theorem other_upload_untouched o st uploadId other :
  op_id o = Some uploadId ->
  plain_name uploadId = true ->
  plain_name other = true ->
  other <> uploadId ->
  other <> metadataPath uploadId ->
  uploadId <> metadataPath other ->
  let st' := snd (step base64_utf8 o st) in
  (forall mine theirs,
     mine ∈ [uploadId; uploadId +:+ ".json"] ->
     theirs ∈ [other; other +:+ ".json"] ->
     path_join mine <> path_join theirs)
  /\ read_meta st' other = read_meta st other
  /\ stored_bytes st' other = stored_bytes st other
  /\ files st' !! other = files st !! other.
Proof.
  intros Hop Hplain Hplain' Hne Hside Hside'. cbv zeta. split.
  { intros mine theirs Hmine Htheirs.
    apply elem_of_cons in Hmine as [->|Hmine];
      [|apply elem_of_cons in Hmine as [->|Hmine]; [|now apply elem_of_nil in Hmine]];
      (apply elem_of_cons in Htheirs as [->|Htheirs];
       [|apply elem_of_cons in Htheirs as [->|Htheirs];
         [|now apply elem_of_nil in Htheirs]]);
      rewrite ?(metadataPath_plain uploadId), ?(metadataPath_plain other),
        ?(filePath_plain uploadId), ?(filePath_plain other) by assumption;
      unfold filePath; intros [= E]; try congruence.
    apply metadataPath_inj in E. congruence. }
  unfold read_meta, stored_bytes.
  rewrite (step_fs_frame o st uploadId (metadataPath other)) by
    (try assumption; unfold filePath; intros E; first
       [now apply metadataPath_inj in E | congruence]).
  rewrite (step_fs_frame o st uploadId (filePath other)) by
    (try assumption; unfold filePath; congruence).
  rewrite (step_files_frame o st uploadId other) by assumption.
  repeat split.
Qed.

End Isolation.

Lemma other_upload_untouched_witness :
  let st := run Example.base64
              [OpPOST true "u2" 7 (Example.create "4" Example.four)] Example.at6 in
  let o := OpPATCH true (Example.append (Some "6") Example.four) Example.u1 in
  let st' := snd (step Example.base64 o st) in
  (forall mine theirs,
     mine ∈ ["u1"; "u1" +:+ ".json"] ->
     theirs ∈ ["u2"; "u2" +:+ ".json"] ->
     path_join mine <> path_join theirs)
  /\ read_meta st' "u2" = read_meta st "u2"
  /\ stored_bytes st' "u2" = stored_bytes st "u2"
  /\ files st' !! "u2" = files st !! "u2".
Proof.
  apply (other_upload_untouched Example.base64
           (OpPATCH true (Example.append (Some "6") Example.four) Example.u1)
           (run Example.base64
              [OpPOST true "u2" 7 (Example.create "4" Example.four)] Example.at6)
           "u1" "u2").
  - reflexivity.
  - reflexivity.
  - reflexivity.
  - discriminate.
  - discriminate.
  - discriminate.
Defined.

(** Without the hypothesis on the names, the paths can meet: the paths that
    a call on [x/../u1] builds are those of the upload [u1]. *)
Example dot_segments_name_other_upload :
  "x/../u1" <> "u1"
  /\ "u1" <> metadataPath "x/../u1"
  /\ "x/../u1" <> metadataPath "u1"
  /\ plain_name "x/../u1" = false
  /\ path_join "x/../u1" = path_join "u1"
  /\ path_join ("x/../u1" +:+ ".json") = path_join ("u1" +:+ ".json").
Proof. repeat split; discriminate. Qed.

(** ** Append: the empty chunk, and what the answer reports *)

Lemma with_offset_same m : meta.with_offset m (meta.offset m + 0) = m.
Proof. destruct m. unfold meta.with_offset. cbn. now rewrite Z.add_0_r. Qed.

(** X7: an Append without bytes at the stored offset is a probe: whether
    the disk accepts writes or not, it is answered 204 with the stored
    offset, and the side record and the stored bytes are as before. Only the
    row of the file is written: its offset becomes the stored offset, and it
    is marked complete when that offset has reached the declared size. *)
Theorem empty_append_is_probe disk_ok req uploadId rest m row st :
  uploadId <> "" ->
  read_meta st uploadId = Some m ->
  files st !! uploadId = Some row ->
  claimed_offset req = Some (meta.offset m) ->
  payload req = [] ->
  let '(r, st') := PATCH disk_ok req (Some (uploadId :: rest)) st in
  status r = 204
  /\ header "Upload-Offset" r = Some (String_ (meta.offset m))
  /\ read_meta st' uploadId = Some m
  /\ stored_bytes st' uploadId = stored_bytes st uploadId
  /\ transfers st' = transfers st
  /\ files st' !! uploadId
     = Some (if meta.offset m >=? default 0 (meta.size m)
             then mark_complete (meta.offset m) row
             else mark_progress (meta.offset m) row).
Proof.
  intros Hid Hm Hrow Hclaim Hempty.
  rewrite (PATCH_accepted _ _ _ _ m) by assumption. cbv zeta.
  rewrite Hempty. change (byteLength []) with 0. change (0 <? 0) with false.
  cbn [andb]. rewrite Hrow, with_offset_same, Z.add_0_r.
  split; [reflexivity|]. split; [apply header_Upload_Offset|].
  split; [apply read_meta_written|].
  split; [unfold stored_bytes; cbn [fs];
          now rewrite lookup_insert_ne by apply metadataPath_filePath|].
  split; [reflexivity|]. cbn [files]. rewrite lookup_insert_eq.
  now destruct (_ >=? _).
Qed.

Lemma empty_append_is_probe_witness :
  let '(r, st') :=
    PATCH false (Example.append (Some "6") []) (Some ["u1"]) Example.at6 in
  status r = 204
  /\ header "Upload-Offset" r = Some (String_ (meta.offset (Example.meta_u1 6)))
  /\ read_meta st' "u1" = Some (Example.meta_u1 6)
  /\ stored_bytes st' "u1" = stored_bytes Example.at6 "u1"
  /\ transfers st' = transfers Example.at6
  /\ files st' !! "u1"
     = Some (if meta.offset (Example.meta_u1 6)
                >=? default 0 (meta.size (Example.meta_u1 6))
             then mark_complete (meta.offset (Example.meta_u1 6))
                    (Example.row_u1 10 6 false)
             else mark_progress (meta.offset (Example.meta_u1 6))
                    (Example.row_u1 10 6 false)).
Proof.
  apply (empty_append_is_probe false (Example.append (Some "6") []) "u1" []
           (Example.meta_u1 6) (Example.row_u1 10 6 false) Example.at6).
  - discriminate.
  - vm_compute. reflexivity.
  - vm_compute. reflexivity.
  - vm_compute. reflexivity.
  - reflexivity.
Defined.

(** X8: whatever offset an Append reports in [Upload-Offset], with 204 or
    with 409, is the offset that a status request made next reports. *)
Theorem status_reports_appended_offset disk_ok req path st reported :
  let '(r, st') := PATCH disk_ok req path st in
  header "Upload-Offset" r = Some reported ->
  let r' := fst (HEAD path st') in
  status r' = 200 /\ header "Upload-Offset" r' = Some reported.
Proof.
  rewrite PATCH_path.
  destruct (truthy (first_segment path)) as [uid|] eqn:E; [|discriminate].
  pose proof E as Hid. apply truthy_inv in Hid as [_ Hid].
  destruct (read_meta st uid) as [m|] eqn:Hm.
  - destruct (decide (claimed_offset req = Some (meta.offset m))) as [Hc|Hc].
    + rewrite (PATCH_accepted _ _ _ _ m) by assumption. cbv zeta.
      destruct ((0 <? byteLength (payload req)) && negb (accepts disk_ok)); [discriminate|].
      destruct (files st !! uid); [|discriminate].
      rewrite header_Upload_Offset. intros [= <-].
      rewrite HEAD_path, E.
      rewrite (HEAD_session uid []
                 (meta.with_offset m (meta.offset m + byteLength (payload req))))
        by (try apply read_meta_written; assumption).
      split; reflexivity.
    + rewrite (PATCH_mismatch _ _ _ _ m) by assumption.
      rewrite header_Upload_Offset. intros [= <-].
      rewrite HEAD_path, E.
      rewrite (HEAD_session uid [] m) by assumption. split; reflexivity.
  - rewrite PATCH_no_session_answer by assumption.
    destruct (decide _); discriminate.
Qed.

Lemma status_reports_appended_offset_witness :
  let '(r, st') :=
    PATCH true (Example.append (Some "6") Example.four) Example.u1 Example.at6 in
  header "Upload-Offset" r = Some "10"
  /\ let r' := fst (HEAD Example.u1 st') in
     status r' = 200 /\ header "Upload-Offset" r' = Some "10".
Proof.
  pose proof (status_reports_appended_offset true
                (Example.append (Some "6") Example.four) Example.u1
                Example.at6 "10") as H.
  destruct (PATCH true (Example.append (Some "6") Example.four) Example.u1
              Example.at6) as [r st'] eqn:E.
  assert (header "Upload-Offset" r = Some "10") as Hr
    by (vm_compute in E; injection E as <- <-; reflexivity).
  split; [exact Hr | exact (H Hr)].
Defined.

(** X9: after an Append answered 204, the row of the file agrees with the
    side record: its offset is the stored offset, and when the stored offset
    has reached the declared size the row is marked complete with the
    stored offset as the size of the file. *)
Theorem accepted_append_updates_row disk_ok req path st :
  let '(r, st') := PATCH disk_ok req path st in
  status r = 204 ->
  exists uploadId m row,
    truthy (first_segment path) = Some uploadId
    /\ read_meta st' uploadId = Some m
    /\ files st' !! uploadId = Some row
    /\ File.uploadOffset row = meta.offset m
    /\ (default 0 (meta.size m) <= meta.offset m ->
        File.uploadComplete row = true /\ File.size row = meta.offset m).
Proof.
  rewrite PATCH_path.
  destruct (truthy (first_segment path)) as [uid|] eqn:E; [|discriminate].
  apply truthy_inv in E as [_ Hid].
  destruct (read_meta st uid) as [m|] eqn:Hm.
  - destruct (decide (claimed_offset req = Some (meta.offset m))) as [Hc|Hc].
    + rewrite (PATCH_accepted _ _ _ _ m) by assumption. cbv zeta.
      destruct ((0 <? byteLength (payload req)) && negb (accepts disk_ok)); [discriminate|].
      destruct (files st !! uid) as [row|]; [|discriminate]. intros _.
      set (n := meta.offset m + byteLength (payload req)).
      exists uid, (meta.with_offset m n),
        ((if n >=? default 0 (meta.size m)
          then mark_complete n else mark_progress n) row).
      split; [reflexivity|]. split; [apply read_meta_written|].
      split; [cbn [files]; apply lookup_insert_eq|].
      cbn [meta.offset meta.size meta.with_offset].
      destruct (n >=? default 0 (meta.size m)) eqn:Hge.
      * repeat split.
      * split; [reflexivity|]. intros Hle.
        rewrite Z.geb_leb in Hge. apply Z.leb_gt in Hge. lia.
    + rewrite (PATCH_mismatch _ _ _ _ m) by assumption. discriminate.
  - rewrite PATCH_no_session_answer by assumption.
    destruct (decide _); discriminate.
Qed.

Lemma accepted_append_updates_row_witness :
  let '(r, st') :=
    PATCH true (Example.append (Some "6") Example.four) Example.u1 Example.at6 in
  status r = 204
  /\ exists uploadId m row,
       truthy (first_segment Example.u1) = Some uploadId
       /\ read_meta st' uploadId = Some m
       /\ files st' !! uploadId = Some row
       /\ File.uploadOffset row = meta.offset m
       /\ (default 0 (meta.size m) <= meta.offset m ->
           File.uploadComplete row = true /\ File.size row = meta.offset m).
Proof.
  pose proof (accepted_append_updates_row true
                (Example.append (Some "6") Example.four) Example.u1
                Example.at6) as H.
  destruct (PATCH true (Example.append (Some "6") Example.four) Example.u1
              Example.at6) as [r st'] eqn:E.
  assert (status r = 204) as Hr
    by (vm_compute in E; injection E as <- <-; reflexivity).
  split; [exact Hr | exact (H Hr)].
Defined.

(** ** Create: what is there afterwards *)

Section CreateThen.

Variable base64_utf8 : string -> string.

(** X10: a Create with a plain identifier (as [uuidv4] gives) that declares
    a length which a number holds exactly (a safe integer: beyond that range
    the declared length is rounded, and the row is refused where it leaves
    the range of its column) and is answered 201 is followed by a status answer 200 that reports the length of the
    creation payload as the offset and the declared length as the length;
    the stored bytes are the payload, and the new row belongs to the named
    transfer. *)
Theorem created_upload_has_status uuid now req st transferId transfer size :
  plain_name uuid = true ->
  transferId_of base64_utf8 req = Some transferId ->
  transfers st !! transferId = Some transfer ->
  files st !! uuid = None ->
  parseInt (or_default (upload_length req) "0") = Some size ->
  isSafeInteger size = true ->
  let '(r, st') := POST base64_utf8 true uuid now req st in
  status r = 201
  /\ header "Location" r = Some (location req uuid)
  /\ header "Upload-Offset" r = Some (String_ (byteLength (payload req)))
  /\ stored_bytes st' uuid = Some (payload req)
  /\ File.transferId <$> files st' !! uuid = Some transferId
  /\ let r' := fst (HEAD (Some [uuid]) st') in
     status r' = 200
     /\ header "Upload-Offset" r' = Some (String_ (byteLength (payload req)))
     /\ header "Upload-Length" r' = Some (String_ size).
Proof.
  intros Hid%plain_name_nonempty Hname Htransfer Hfree Hsize _.
  rewrite (POST_found _ _ _ _ _ _ transferId transfer) by assumption. cbv zeta.
  rewrite Hsize, Hfree.
  destruct (0 <? byteLength (payload req)) eqn:Hlen.
  - split; [reflexivity|]. split; [reflexivity|]. split; [reflexivity|].
    split.
    { unfold stored_bytes. cbn [fs].
      rewrite lookup_insert_ne by apply metadataPath_filePath.
      now rewrite lookup_insert_eq. }
    split; [cbn [files]; now rewrite lookup_insert_eq|].
    rewrite (HEAD_session uuid [] _) by (try apply read_meta_written; assumption).
    repeat split.
  - apply byteLength_nil_or_pos in Hlen. rewrite Hlen.
    split; [reflexivity|]. split; [reflexivity|]. split; [reflexivity|].
    split.
    { unfold stored_bytes. cbn [fs].
      rewrite lookup_insert_ne by apply metadataPath_filePath.
      now rewrite lookup_insert_eq. }
    split; [cbn [files]; now rewrite lookup_insert_eq|].
    rewrite (HEAD_session uuid [] _) by (try apply read_meta_written; assumption).
    repeat split.
Qed.

(** X11: a Create whose [Upload-Length] does not start with a number, for an
    existing transfer, is answered 500 after the two files were written: the
    empty upload and its side record stay in the directory, with a declared
    size of [null], and no row is created for them. *)
Theorem create_with_unreadable_length_leaves_files
  disk_ok uuid now req st transferId transfer :
  uuid <> "" ->
  transferId_of base64_utf8 req = Some transferId ->
  transfers st !! transferId = Some transfer ->
  parseInt (or_default (upload_length req) "0") = None ->
  let '(r, st') := POST base64_utf8 disk_ok uuid now req st in
  status r = 500
  /\ header "Location" r = None
  /\ stored_bytes st' uuid = Some []
  /\ meta.offset <$> read_meta st' uuid = Some 0
  /\ meta.size <$> read_meta st' uuid = Some None
  /\ files st' = files st
  /\ header "Upload-Length" (fst (HEAD (Some [uuid]) st')) = Some "null".
Proof.
  intros Hid Hname Htransfer Hsize.
  rewrite (POST_found _ _ _ _ _ _ transferId transfer) by assumption. cbv zeta.
  rewrite Hsize.
  split; [reflexivity|]. split; [reflexivity|].
  split.
  { unfold stored_bytes. cbn [fs].
    rewrite lookup_insert_ne by apply metadataPath_filePath.
    now rewrite lookup_insert_eq. }
  rewrite read_meta_written.
  split; [reflexivity|]. split; [reflexivity|]. split; [reflexivity|].
  rewrite (HEAD_session uuid [] _) by (try apply read_meta_written; assumption).
  reflexivity.
Qed.

End CreateThen.

Lemma created_upload_has_status_witness :
  let req := Example.create "10" Example.six in
  let '(r, st') := POST Example.base64 true "u1" 5 req Example.world0 in
  status r = 201
  /\ header "Location" r = Some (location req "u1")
  /\ header "Upload-Offset" r = Some (String_ (byteLength (payload req)))
  /\ stored_bytes st' "u1" = Some (payload req)
  /\ File.transferId <$> files st' !! "u1" = Some "T"
  /\ let r' := fst (HEAD (Some ["u1"]) st') in
     status r' = 200
     /\ header "Upload-Offset" r' = Some (String_ (byteLength (payload req)))
     /\ header "Upload-Length" r' = Some (String_ 10).
Proof.
  apply (created_upload_has_status Example.base64 "u1" 5
           (Example.create "10" Example.six) Example.world0 "T"
           (Transfer.mk 100 "pending") 10).
  - reflexivity.
  - vm_compute. reflexivity.
  - vm_compute. reflexivity.
  - vm_compute. reflexivity.
  - vm_compute. reflexivity.
  - vm_compute. reflexivity.
Defined.

Lemma create_with_unreadable_length_leaves_files_witness :
  let '(r, st') :=
    POST Example.base64 true "u1" 5 (Example.create "ten" []) Example.world0 in
  status r = 500
  /\ header "Location" r = None
  /\ stored_bytes st' "u1" = Some []
  /\ meta.offset <$> read_meta st' "u1" = Some 0
  /\ meta.size <$> read_meta st' "u1" = Some None
  /\ files st' = files Example.world0
  /\ header "Upload-Length" (fst (HEAD (Some ["u1"]) st')) = Some "null".
Proof.
  apply (create_with_unreadable_length_leaves_files Example.base64 true "u1" 5
           (Example.create "ten" []) Example.world0 "T"
           (Transfer.mk 100 "pending")).
  - discriminate.
  - vm_compute. reflexivity.
  - vm_compute. reflexivity.
  - vm_compute. reflexivity.
Defined.

(** ** Cancel: what is there afterwards *)

(** X12: after a Cancel of an upload, a status request and an Append for the
    same identifier are both answered 404, and the Append writes nothing. *)
Theorem cancelled_upload_not_found disk_ok req uploadId rest st :
  uploadId <> "" ->
  let st' := snd (DELETE (Some (uploadId :: rest)) st) in
  status (fst (HEAD (Some (uploadId :: rest)) st')) = 404
  /\ PATCH disk_ok req (Some (uploadId :: rest)) st'
     = (Response 404 (Some "Upload not found") getCorsHeaders, st').
Proof.
  intros Hid. cbv zeta. rewrite DELETE_run by assumption. cbn [snd].
  set (st' := State _ _ _).
  assert (fs st' !! metadataPath uploadId = None) as Hgone
    by (cbn [fs st']; apply lookup_delete_eq).
  assert (read_meta st' uploadId = None) as Hm
    by (unfold read_meta; now rewrite Hgone).
  rewrite HEAD_no_session, PATCH_no_session_answer by assumption.
  destruct (decide _); [split; reflexivity | contradiction].
Qed.

Lemma cancelled_upload_not_found_witness :
  let st' := snd (DELETE (Some ["u1"]) Example.at6) in
  status (fst (HEAD (Some ["u1"]) st')) = 404
  /\ PATCH true (Example.append (Some "6") Example.four) (Some ["u1"]) st'
     = (Response 404 (Some "Upload not found") getCorsHeaders, st').
Proof.
  apply (cancelled_upload_not_found true (Example.append (Some "6") Example.four)
           "u1" [] Example.at6).
  discriminate.
Defined.

(** ** The metadata header, read back *)

Lemma rev_app_append s1 s2 s3 :
  String.rev_app (s1 +:+ s2) s3 = String.rev_app s2 (String.rev_app s1 s3).
Proof.
  revert s3. induction s1 as [|a s1 IH]; intros s3;
    [reflexivity | rewrite append_cons; apply IH].
Qed.

Lemma rev_app_rev_app s t u :
  String.rev_app (String.rev_app s t) u = String.rev_app t (s +:+ u).
Proof.
  revert t. induction s as [|a s IH]; intros t; [reflexivity|].
  cbn [String.rev_app]. now rewrite IH, append_cons.
Qed.

Lemma string_app_nil_r s : s +:+ "" = s.
Proof.
  induction s as [|a s IH]; [reflexivity|]. rewrite append_cons. now f_equal.
Qed.

Lemma rev_rev s : String.rev (String.rev s) = s.
Proof. unfold String.rev. rewrite rev_app_rev_app. apply string_app_nil_r. Qed.

(** Reversed, a string that ends with a character that is not white space
    starts with it. *)
Lemma trimStart_rev_app v t :
  v <> "" ->
  all_chars (fun a => negb (isWhiteSpace a)) v = true ->
  trimStart (String.rev_app v t) = String.rev_app v t.
Proof.
  revert t. induction v as [|a v IH]; intros t Hne Hall; [congruence|].
  cbn [all_chars] in Hall. apply andb_true_iff in Hall as [Ha Hv].
  apply negb_true_iff in Ha. cbn [String.rev_app].
  destruct v as [|b v].
  - cbn [String.rev_app trimStart]. now rewrite Ha.
  - apply IH; [discriminate | assumption].
Qed.

(** A well-formed pair starts and ends with a character that is not white
    space: it is its own [trim]. *)
Lemma trim_pair k v :
  token k = true -> token v = true ->
  trim (k +:+ " " +:+ v) = k +:+ " " +:+ v.
Proof.
  unfold token. intros [Hk Hkc]%andb_true_iff [Hv Hvc]%andb_true_iff.
  apply negb_true_iff, bool_decide_eq_false in Hk.
  apply negb_true_iff, bool_decide_eq_false in Hv.
  assert (forall a, negb (isWhiteSpace a) && negb (Ascii.eqb a ",") = true ->
                    negb (isWhiteSpace a) = true) as Hweak
    by (intros a [Ha _]%andb_true_iff; exact Ha).
  apply (all_chars_impl _ _ _ Hweak) in Hkc.
  apply (all_chars_impl _ _ _ Hweak) in Hvc.
  unfold trim.
  assert (trimStart (k +:+ " " +:+ v) = k +:+ " " +:+ v) as ->.
  { destruct k as [|a k]; [congruence|]. cbn [all_chars] in Hkc.
    apply andb_true_iff in Hkc as [Ha _]. apply negb_true_iff in Ha.
    rewrite append_cons. cbn [trimStart]. now rewrite Ha. }
  unfold String.rev at 2.
  rewrite rev_app_append, rev_app_append.
  rewrite trimStart_rev_app by assumption.
  rewrite <- !rev_app_append. apply rev_rev.
Qed.

Lemma split_app_sep sep s r :
  all_chars (fun a => negb (Ascii.eqb a sep)) s = true ->
  split sep (s +:+ String sep r) = s :: split sep r.
Proof.
  induction s as [|a s IH]; cbn [all_chars].
  - intros _. rewrite append_nil_l. cbn [split]. now rewrite Ascii.eqb_refl.
  - intros [Ha Hs]%andb_true_iff. apply negb_true_iff in Ha.
    rewrite append_cons. cbn [split]. now rewrite Ha, (IH Hs).
Qed.

Lemma token_no_space s :
  token s = true -> all_chars (fun a => negb (Ascii.eqb a " ")) s = true.
Proof.
  unfold token. intros [_ H]%andb_true_iff. revert H. apply all_chars_impl.
  intros a [Ha _]%andb_true_iff.
  destruct a as [[] [] [] [] [] [] [] []]; try reflexivity; discriminate Ha.
Qed.

Lemma token_no_comma s :
  token s = true -> all_chars (fun a => negb (Ascii.eqb a ",")) s = true.
Proof.
  unfold token. intros [_ H]%andb_true_iff. revert H. apply all_chars_impl.
  now intros a [_ Ha]%andb_true_iff.
Qed.

Lemma token_nonempty s : token s = true -> s <> "".
Proof.
  unfold token. intros [H _]%andb_true_iff.
  now apply negb_true_iff, bool_decide_eq_false in H.
Qed.

Lemma concat_cons2 sep x y l :
  String.concat sep (x :: y :: l) = x +:+ sep +:+ String.concat sep (y :: l).
Proof. reflexivity. Qed.

(** Joining strings that do not contain the separator, and splitting the
    result, gives the strings back. *)
Lemma split_concat sep x l :
  Forall (fun s => all_chars (fun a => negb (Ascii.eqb a sep)) s = true) (x :: l) ->
  split sep (String.concat (String sep "") (x :: l)) = x :: l.
Proof.
  revert x. induction l as [|y l IH]; intros x Hall;
    inversion Hall as [|? ? Hx Hrest]; subst.
  - now apply split_no_sep.
  - rewrite concat_cons2, append_cons, append_nil_l.
    rewrite split_app_sep by assumption. f_equal. now apply IH.
Qed.

Section Metadata.

Variable base64_utf8 : string -> string.

(** One well-formed pair is stored under its key, decoded, unless the key
    is [__proto__]. *)
Lemma parseMetadata_pair_token result k v :
  token k = true -> token v = true ->
  parseMetadata_pair base64_utf8 result (k +:+ " " +:+ v)
  = if named_property (k, v) then <[k := base64_utf8 v]> result else result.
Proof.
  intros Hk Hv. unfold parseMetadata_pair.
  rewrite trim_pair by assumption.
  change (k +:+ " " +:+ v) with (k +:+ String " " v).
  rewrite split_app_sep by now apply token_no_space.
  rewrite split_no_sep by now apply token_no_space.
  destruct (decide (k = "")) as [E|_]; [now apply token_nonempty in Hk|].
  destruct (decide (v = "")) as [E|_]; [now apply token_nonempty in Hv|].
  unfold named_property. cbn [fst].
  destruct (decide (k = "__proto__")) as [E|E].
  - now rewrite bool_decide_true.
  - now rewrite bool_decide_false.
Qed.

Lemma split_metadata_header kv pairs :
  Forall (fun kv => token (fst kv) = true /\ token (snd kv) = true) (kv :: pairs) ->
  split "," (metadata_header (kv :: pairs))
  = map (fun kv => fst kv +:+ " " +:+ snd kv) (kv :: pairs).
Proof.
  intros Hall. unfold metadata_header.
  set (f := fun kv : string * string => fst kv +:+ " " +:+ snd kv).
  apply (split_concat "," (f kv) (map f pairs)).
  change (Forall (fun s => all_chars (fun a => negb (Ascii.eqb a ",")) s = true)
            (map f (kv :: pairs))).
  apply Forall_map. eapply Forall_impl; [exact Hall|]. intros [k v] [Hk Hv].
  unfold f. cbn [fst snd] in *. rewrite !all_chars_app.
  rewrite (token_no_comma _ Hk), (token_no_comma _ Hv). reflexivity.
Qed.

Lemma fold_parseMetadata_pair pairs : forall result,
  Forall (fun kv => token (fst kv) = true /\ token (snd kv) = true) pairs ->
  fold_left (parseMetadata_pair base64_utf8)
    (map (fun kv => fst kv +:+ " " +:+ snd kv) pairs) result
  = fold_left (fun r kv => <[fst kv := base64_utf8 (snd kv)]> r)
      (List.filter named_property pairs) result.
Proof.
  induction pairs as [|[k v] pairs IH]; intros result Hall; [reflexivity|].
  inversion Hall as [|? ? [Hk Hv] Hrest]; subst. cbn [map fold_left fst snd] in *.
  rewrite parseMetadata_pair_token by assumption. cbn [List.filter].
  destruct (named_property (k, v)); cbn [fold_left fst snd]; now apply IH.
Qed.

(** X13: the header that a client writes for a list of keys and encoded
    values, none of them empty or containing white space (the no-break space
    included) or a comma, is parsed into the map that binds each key to its
    decoded value, a later pair overriding an earlier one with the same key;
    a pair whose key is [__proto__] is dropped, since the assignment to that
    key of an object literal makes no entry. *)
Theorem parseMetadata_metadata_header pairs :
  Forall (fun kv => token (fst kv) = true /\ token (snd kv) = true) pairs ->
  parseMetadata base64_utf8 (Some (metadata_header pairs))
  = fold_left (fun r kv => <[fst kv := base64_utf8 (snd kv)]> r)
      (List.filter named_property pairs) ∅.
Proof.
  intros Hall. unfold parseMetadata. destruct pairs as [|kv pairs]; [reflexivity|].
  assert (metadata_header (kv :: pairs) <> "") as Hne.
  { inversion Hall as [|? ? [Hk _] _]; subst. apply token_nonempty in Hk.
    unfold metadata_header. cbn [map String.concat].
    destruct (fst kv) as [|a k]; [congruence|]. destruct pairs; discriminate. }
  rewrite truthy_Some by assumption.
  rewrite split_metadata_header by assumption.
  now apply fold_parseMetadata_pair.
Qed.

End Metadata.

Lemma parseMetadata_metadata_header_witness :
  parseMetadata Example.base64
    (Some (metadata_header [("transferId", "WA=="); ("__proto__", "WA==");
                            ("filename", "YS5iaW4="); ("transferId", "VA==")]))
  = fold_left (fun r kv => <[fst kv := Example.base64 (snd kv)]> r)
      (List.filter named_property
         [("transferId", "WA=="); ("__proto__", "WA==");
          ("filename", "YS5iaW4="); ("transferId", "VA==")]) ∅.
Proof.
  apply (parseMetadata_metadata_header Example.base64
           [("transferId", "WA=="); ("__proto__", "WA==");
            ("filename", "YS5iaW4="); ("transferId", "VA==")]).
  repeat constructor.
Defined.

Example parseMetadata_proto :
  parseMetadata Example.base64 (Some "__proto__ WA==,transferId VA==")
  = <["transferId" := "T"]> ∅.
Proof. vm_compute. reflexivity. Qed.

Example trim_no_break_space :
  trim (String (ascii_of_nat 160) "a b" +:+ String (ascii_of_nat 160) "") = "a b".
Proof. reflexivity. Qed.

(** ** The cleanup job *)

Lemma cleanup_file_run file st :
  cleanup_file file st = (Done tt, set_fs (unlink_upload (File.filename file)) st).
Proof.
  destruct st as [dir tbl rows].
  unfold cleanup_file, catch_ignore, unlink_upload, set_fs.
  cbv beta iota zeta delta [mbind M_bind mret M_ret existsSync unlinkSync set_fs].
  cbn [fs files transfers].
  destruct (dir !! File.filename file) as [c|] eqn:Hblob.
  - world. reflexivity.
  - change (bool_decide (is_Some (@None content))) with false. cbv iota.
    destruct (dir !! (File.filename file +:+ ".bin")) as [c|] eqn:Hbin; world.
    + reflexivity.
    + now rewrite delete_id by assumption.
Qed.

Lemma for_each_cleanup_file fl st :
  for_each cleanup_file fl st
  = (Done tt,
     set_fs (fun dir => fold_left (fun d f => unlink_upload (File.filename f) d) fl dir)
       st).
Proof.
  revert st. induction fl as [|f fl IH]; intros st; cbn [for_each fold_left].
  - now destruct st.
  - unfold mbind, M_bind. rewrite cleanup_file_run, IH. now destruct st.
Qed.


Lemma unlink_all_cons e entries dir :
  unlink_all (e :: entries) dir
  = unlink_all entries
      (fold_left (fun d f => unlink_upload (File.filename f) d) (snd e) dir).
Proof. unfold unlink_all. cbn [fmap list_fmap concat]. apply fold_left_app. Qed.

Lemma insert_as_alter (f : Transfer.t -> Transfer.t) (tbl : gmap string Transfer.t) id t :
  tbl !! id = Some t -> <[id := f t]> tbl = alter f id tbl.
Proof.
  intros H. apply map_eq. intros k. destruct (decide (id = k)) as [->|Hne].
  - now rewrite lookup_insert_eq, lookup_alter_eq, H.
  - now rewrite lookup_insert_ne, lookup_alter_ne by assumption.
Qed.

(** The outer loop, when every entry names a row of the table: the files of
    all entries are looked for, every entry is marked deleted, and nothing
    throws. *)
Lemma for_each_cleanup_transfer entries : forall st,
  Forall (fun e => is_Some (transfers st !! fst e)) entries ->
  for_each cleanup_transfer entries st
  = (Done tt,
     State (unlink_all entries (fs st))
           (fold_left (fun tb e => alter mark_deleted (fst e) tb) entries
              (transfers st))
           (files st)).
Proof.
  induction entries as [|e entries IH]; intros st Hall.
  - now destruct st.
  - inversion Hall as [|? ? [t Ht] Hrest]; subst.
    cbn [for_each fold_left]. rewrite unlink_all_cons.
    unfold mbind, M_bind, cleanup_transfer at 1.
    unfold mbind, M_bind. rewrite for_each_cleanup_file.
    unfold prisma_transfer_update, set_fs, set_transfers.
    cbn [fs files transfers]. rewrite Ht.
    rewrite IH; cbn [fs files transfers].
    + now rewrite (insert_as_alter _ _ _ t) by assumption.
    + eapply Forall_impl; [exact Hrest|]. intros e' [t' Ht'].
      destruct (decide (fst e = fst e')) as [<-|Hne].
      * rewrite lookup_insert_eq. eauto.
      * rewrite lookup_insert_ne by assumption. eauto.
Qed.

Lemma mark_deleted_idemp t : mark_deleted (mark_deleted t) = mark_deleted t.
Proof. reflexivity. Qed.

Lemma lookup_fold_mark_deleted (entries : list (string * list File.t)) :
  forall (tbl : gmap string Transfer.t) k,
  fold_left (fun tb e => alter mark_deleted (fst e) tb) entries tbl !! k
  = if decide (k ∈ fst <$> entries) then mark_deleted <$> tbl !! k else tbl !! k.
Proof.
  induction entries as [|e entries IH]; intros tbl k; cbn [fold_left].
  - rewrite decide_False by (cbn; apply not_elem_of_nil). reflexivity.
  - rewrite IH. cbn [fmap list_fmap].
    destruct (decide (fst e = k)) as [<-|Hne].
    + rewrite lookup_alter_eq.
      rewrite (decide_True (P := fst e ∈ fst e :: _)) by apply list_elem_of_here.
      destruct (decide (fst e ∈ fst <$> entries)); [|reflexivity].
      destruct (tbl !! fst e); reflexivity.
    + rewrite lookup_alter_ne by assumption.
      destruct (decide (k ∈ fst <$> entries)) as [Hin|Hout].
      * now rewrite decide_True by now apply list_elem_of_further.
      * rewrite decide_False; [reflexivity|].
        intros [?|?]%elem_of_cons; congruence.
Qed.

Lemma findMany_expired_run now st :
  prisma_transfer_findMany_expired now st = (Done (expired_entries now st), st).
Proof. reflexivity. Qed.

(** The entries are the expired rows of the table of transfers, each with
    the rows of its files. *)
Lemma expired_entries_elem now st e :
  e ∈ expired_entries now st <->
  exists t, transfers st !! fst e = Some t /\ expired now t = true
            /\ snd e = files_of (fst e) (files st).
Proof.
  unfold expired_entries. rewrite list_elem_of_fmap. split.
  - intros ([k t] & -> & Hin). apply elem_of_map_to_list in Hin.
    apply map_lookup_filter_Some in Hin as [Hk Ht]. cbn in *. eauto.
  - intros (t & Hk & Ht & Hsnd). exists (fst e, t). split.
    + destruct e as [k fl]. cbn in *. now subst.
    + apply elem_of_map_to_list, map_lookup_filter_Some. now split.
Qed.

Lemma expired_entries_ids now st k :
  k ∈ fst <$> expired_entries now st <->
  exists t, transfers st !! k = Some t /\ expired now t = true.
Proof.
  rewrite list_elem_of_fmap. split.
  - intros (e & -> & He). apply expired_entries_elem in He as (t & ? & ? & _). eauto.
  - intros (t & Hk & Ht). exists (k, files_of k (files st)). split; [reflexivity|].
    apply expired_entries_elem. cbn. eauto.
Qed.

Lemma files_of_elem transferId rows row :
  row ∈ files_of transferId rows <->
  exists id, rows !! id = Some row /\ File.transferId row = transferId.
Proof.
  unfold files_of. rewrite list_elem_of_fmap. split.
  - intros ([id r] & -> & Hin). apply elem_of_map_to_list in Hin.
    apply map_lookup_filter_Some in Hin as [Hid Hr]. cbn in *. eauto.
  - intros (id & Hid & Ht). exists (id, row). split; [reflexivity|].
    apply elem_of_map_to_list, map_lookup_filter_Some. now split.
Qed.

(** The job as one equation. *)
Lemma cleanupExpiredTransfers_run now st :
  cleanupExpiredTransfers now st
  = State (unlink_all (expired_entries now st) (fs st))
          (fold_left (fun tb e => alter mark_deleted (fst e) tb)
             (expired_entries now st) (transfers st))
          (files st).
Proof.
  unfold cleanupExpiredTransfers, try_catch, mbind, M_bind.
  rewrite findMany_expired_run, for_each_cleanup_transfer; [reflexivity|].
  apply Forall_forall. intros e (t & Ht & _)%expired_entries_elem. eauto.
Qed.

Lemma cleanup_tables now st id :
  transfers (cleanupExpiredTransfers now st) !! id
  = (fun t => if expired now t then mark_deleted t else t) <$> transfers st !! id
  /\ files (cleanupExpiredTransfers now st) = files st.
Proof.
  rewrite cleanupExpiredTransfers_run. cbn [transfers files].
  split; [|reflexivity]. rewrite lookup_fold_mark_deleted.
  destruct (decide (id ∈ fst <$> expired_entries now st)) as [Hin|Hout].
  - apply expired_entries_ids in Hin as (t & -> & Ht). cbn. now rewrite Ht.
  - destruct (transfers st !! id) as [t|] eqn:Hid; [|reflexivity]. cbn.
    destruct (expired now t) eqn:Ht; [|reflexivity].
    exfalso. apply Hout, expired_entries_ids. eauto.
Qed.

(** X14: after the job has run, every transfer that had expired and was not
    yet marked deleted is marked deleted, with its expiry date unchanged;
    every other transfer, and every row of the table of files, is as
    before. *)
Theorem cleanup_marks_expired_transfers now st id :
  transfers (cleanupExpiredTransfers now st) !! id
  = (fun t => if expired now t then mark_deleted t else t) <$> transfers st !! id
  /\ files (cleanupExpiredTransfers now st) = files st.
Proof. apply cleanup_tables. Qed.

Lemma expired_mark_deleted now t : expired now (mark_deleted t) = false.
Proof. unfold expired, mark_deleted. cbn. apply andb_false_r. Qed.

(** X15: the job is idempotent: run a second time at the same moment, it
    finds no transfer to clean and changes nothing. *)
Theorem cleanup_idempotent now st :
  cleanupExpiredTransfers now (cleanupExpiredTransfers now st)
  = cleanupExpiredTransfers now st.
Proof.
  set (st' := cleanupExpiredTransfers now st).
  assert (expired_entries now st' = []) as Hnone.
  { unfold expired_entries.
    assert (filter (fun kv : string * Transfer.t => expired now (snd kv) = true)
              (transfers st') = ∅) as ->.
    { apply map_empty. intros k. apply map_lookup_filter_None.
      destruct (transfers st' !! k) as [t'|] eqn:Hk; [right | now left].
      intros x [= <-]. cbn.
      destruct (cleanup_tables now st k) as [Hlook _].
      fold st' in Hlook. rewrite Hk in Hlook.
      destruct (transfers st !! k) as [t|]; [|discriminate].
      cbn in Hlook. injection Hlook as ->.
      destruct (expired now t) eqn:Ht; [|congruence].
      now rewrite expired_mark_deleted. }
    now rewrite map_to_list_empty. }
  rewrite (cleanupExpiredTransfers_run now st'), Hnone.
  now destruct st'.
Qed.

(** One pass of the inner loop only removes: a name bound afterwards was
    bound to the same content before. *)
Lemma unlink_upload_lookup name dir p :
  unlink_upload name dir !! p = dir !! p
  \/ (unlink_upload name dir !! p = None
      /\ (p = name \/ p = name +:+ ".bin")).
Proof.
  unfold unlink_upload. destruct (dir !! name) eqn:Hname.
  - destruct (decide (p = name)) as [->|Hne].
    + right. split; [apply lookup_delete_eq | now left].
    + left. now apply lookup_delete_ne.
  - destruct (decide (p = name +:+ ".bin")) as [->|Hne].
    + right. split; [apply lookup_delete_eq | now right].
    + left. now apply lookup_delete_ne.
Qed.

Lemma unlink_upload_name name dir : unlink_upload name dir !! name = None.
Proof.
  unfold unlink_upload. destruct (dir !! name) eqn:Hname.
  - apply lookup_delete_eq.
  - destruct (decide (name = name +:+ ".bin")) as [E|Hne].
    + rewrite <- E. apply lookup_delete_eq.
    + now rewrite lookup_delete_ne.
Qed.

Lemma fold_unlink_lookup (fl : list File.t) : forall dir p,
  fold_left (fun d f => unlink_upload (File.filename f) d) fl dir !! p = dir !! p
  \/ (fold_left (fun d f => unlink_upload (File.filename f) d) fl dir !! p = None
      /\ exists row, row ∈ fl
           /\ (p = File.filename row \/ p = File.filename row +:+ ".bin")).
Proof.
  induction fl as [|f fl IH]; intros dir p; cbn [fold_left]; [now left|].
  destruct (IH (unlink_upload (File.filename f) dir) p)
    as [E | (E & row & Hin & Hp)].
  - rewrite E.
    destruct (unlink_upload_lookup (File.filename f) dir p) as [E' | [E' Hp]].
    + now left.
    + right. split; [assumption|]. exists f. split; [apply list_elem_of_here | assumption].
  - right. split; [assumption|]. exists row.
    split; [now apply list_elem_of_further | assumption].
Qed.

Lemma fold_unlink_None (fl : list File.t) dir p :
  dir !! p = None ->
  fold_left (fun d f => unlink_upload (File.filename f) d) fl dir !! p = None.
Proof.
  intros H. destruct (fold_unlink_lookup fl dir p) as [E | [E _]]; congruence.
Qed.

Lemma fold_unlink_gone (fl : list File.t) : forall dir row,
  row ∈ fl ->
  fold_left (fun d f => unlink_upload (File.filename f) d) fl dir
    !! File.filename row = None.
Proof.
  induction fl as [|f fl IH]; intros dir row Hin; [now apply elem_of_nil in Hin|].
  cbn [fold_left]. apply elem_of_cons in Hin as [->|Hin].
  - apply fold_unlink_None, unlink_upload_name.
  - now apply IH.
Qed.

Lemma unlink_all_lookup entries : forall dir p,
  unlink_all entries dir !! p = dir !! p
  \/ (unlink_all entries dir !! p = None
      /\ exists e row, e ∈ entries /\ row ∈ snd e
           /\ (p = File.filename row \/ p = File.filename row +:+ ".bin")).
Proof.
  induction entries as [|e entries IH]; intros dir p; [now left|].
  rewrite unlink_all_cons.
  destruct (IH (fold_left (fun d f => unlink_upload (File.filename f) d) (snd e) dir) p)
    as [E | (E & e' & row & He' & Hrow & Hp)].
  - rewrite E. destruct (fold_unlink_lookup (snd e) dir p) as [E' | (E' & row & Hrow & Hp)].
    + now left.
    + right. split; [assumption|]. exists e, row.
      split; [apply list_elem_of_here | now split].
  - right. split; [assumption|]. exists e', row.
    split; [now apply list_elem_of_further | now split].
Qed.

Lemma unlink_all_gone entries : forall dir e row,
  e ∈ entries -> row ∈ snd e ->
  unlink_all entries dir !! File.filename row = None.
Proof.
  induction entries as [|e0 entries IH]; intros dir e row He Hrow;
    [now apply elem_of_nil in He|].
  rewrite unlink_all_cons. apply elem_of_cons in He as [->|He].
  - destruct (unlink_all_lookup entries
                (fold_left (fun d f => unlink_upload (File.filename f) d) (snd e0) dir)
                (File.filename row)) as [E | [E _]]; [|assumption].
    rewrite E. now apply fold_unlink_gone.
  - now apply IH with (e := e).
Qed.

Lemma cleanup_blob_gone now st id row t :
  files st !! id = Some row ->
  transfers st !! File.transferId row = Some t ->
  expired now t = true ->
  fs (cleanupExpiredTransfers now st) !! File.filename row = None.
Proof.
  intros Hrow Ht Hexp. rewrite cleanupExpiredTransfers_run. cbn [fs].
  apply unlink_all_gone
    with (e := (File.transferId row, files_of (File.transferId row) (files st))).
  - apply expired_entries_elem. cbn. eauto.
  - cbn. apply files_of_elem. eauto.
Qed.

(** X16: after the job has run, no file of the upload directory bears the
    name of a file whose transfer had expired and was not yet marked
    deleted: the stored bytes of its uploads are gone. *)
Theorem cleanup_removes_expired_bytes now st id row t :
  files st !! id = Some row ->
  transfers st !! File.transferId row = Some t ->
  expired now t = true ->
  fs (cleanupExpiredTransfers now st) !! File.filename row = None.
Proof. apply cleanup_blob_gone. Qed.

Lemma cleanup_removes_expired_bytes_witness :
  fs (cleanupExpiredTransfers 200 Example.at6)
    !! File.filename (Example.row_u1 10 6 false) = None.
Proof.
  apply (cleanup_removes_expired_bytes 200 Example.at6 "u1"
           (Example.row_u1 10 6 false) (Transfer.mk 100 "pending")).
  - vm_compute. reflexivity.
  - vm_compute. reflexivity.
  - reflexivity.
Defined.

(** X17: the job removes nothing else. A name of the upload directory that
    is bound differently after the job is unbound, and it is the name, or
    the name with [.bin], of a file whose transfer had expired; such a
    transfer is one that the download routes refuse at that moment. *)
Theorem cleanup_removes_only_expired now st p :
  fs (cleanupExpiredTransfers now st) !! p <> fs st !! p ->
  fs (cleanupExpiredTransfers now st) !! p = None
  /\ exists id row t,
       files st !! id = Some row
       /\ transfers st !! File.transferId row = Some t
       /\ expired now t = true
       /\ expired_or_deleted now t = true
       /\ (p = File.filename row \/ p = File.filename row +:+ ".bin").
Proof.
  rewrite cleanupExpiredTransfers_run. cbn [fs]. intros Hchanged.
  destruct (unlink_all_lookup (expired_entries now st) (fs st) p)
    as [E | (E & e & row & He & Hrow & Hp)]; [contradiction|].
  split; [assumption|].
  apply expired_entries_elem in He as (t & Ht & Hexp & Hsnd).
  rewrite Hsnd in Hrow. apply files_of_elem in Hrow as (id & Hid & Htid).
  exists id, row, t. rewrite Htid. repeat split; try assumption.
  unfold expired in Hexp. apply andb_true_iff in Hexp as [Hlt _].
  unfold expired_or_deleted. rewrite Hlt. apply orb_true_r.
Qed.

Lemma cleanup_removes_only_expired_witness :
  fs (cleanupExpiredTransfers 200 Example.at6) !! "u1" = None
  /\ exists id row t,
       files Example.at6 !! id = Some row
       /\ transfers Example.at6 !! File.transferId row = Some t
       /\ expired 200 t = true
       /\ expired_or_deleted 200 t = true
       /\ ("u1" = File.filename row \/ "u1" = File.filename row +:+ ".bin").
Proof.
  apply (cleanup_removes_only_expired 200 Example.at6 "u1").
  vm_compute. discriminate.
Defined.

Lemma metadataPath_not_bin a b : metadataPath a <> b +:+ ".bin".
Proof.
  unfold metadataPath. intros E. apply (f_equal String.rev) in E.
  unfold String.rev in E. rewrite !rev_app_append in E. cbn in E. discriminate.
Qed.

Lemma cleanup_fs_lookup now st p :
  fs (cleanupExpiredTransfers now st) !! p = fs st !! p
  \/ exists id row,
       files st !! id = Some row
       /\ (p = File.filename row \/ p = File.filename row +:+ ".bin").
Proof.
  rewrite cleanupExpiredTransfers_run. cbn [fs].
  destruct (unlink_all_lookup (expired_entries now st) (fs st) p)
    as [E | (E & e & row & He & Hrow & Hp)]; [now left | right].
  apply expired_entries_elem in He as (t & Ht & Hexp & Hsnd).
  rewrite Hsnd in Hrow. apply files_of_elem in Hrow as (id & Hid & Htid).
  eauto.
Qed.

(** X18: the job leaves the side record and the row of an upload whose
    bytes it removes (no row being named like the side file). Such an
    upload still answers a status request with 200 and its old offset,
    although no byte is stored; and an Append at that offset is accepted and
    stores its chunk alone, so that the stored offset is then larger than
    the number of stored bytes by the old offset. *)
Theorem cleanup_leaves_side_record now st uploadId m row t req :
  uploadId <> "" ->
  read_meta st uploadId = Some m ->
  files st !! uploadId = Some row ->
  File.filename row = uploadId ->
  transfers st !! File.transferId row = Some t ->
  expired now t = true ->
  (forall id r, files st !! id = Some r -> File.filename r <> metadataPath uploadId) ->
  claimed_offset req = Some (meta.offset m) ->
  payload req <> [] ->
  let st' := cleanupExpiredTransfers now st in
  stored_bytes st' uploadId = None
  /\ read_meta st' uploadId = Some m
  /\ files st' !! uploadId = Some row
  /\ (let r := fst (HEAD (Some [uploadId]) st') in
      status r = 200
      /\ header "Upload-Offset" r = Some (String_ (meta.offset m)))
  /\ (let '(r, st2) := PATCH true req (Some [uploadId]) st' in
      status r = 204
      /\ stored_bytes st2 uploadId = Some (payload req)
      /\ meta.offset <$> read_meta st2 uploadId
         = Some (meta.offset m + byteLength (payload req))).
Proof.
  intros Hid Hm Hrow Hname Ht Hexp Hnames Hclaim Hdata. cbv zeta.
  set (st' := cleanupExpiredTransfers now st).
  assert (fs st' !! filePath uploadId = None) as Hblob.
  { unfold filePath. rewrite <- Hname.
    exact (cleanup_blob_gone now st uploadId row t Hrow Ht Hexp). }
  assert (fs st' !! metadataPath uploadId = fs st !! metadataPath uploadId) as Hside.
  { destruct (cleanup_fs_lookup now st (metadataPath uploadId))
      as [E | (id & r & Hr & [E | E])]; [exact E | |].
    - symmetry in E. now apply Hnames in Hr.
    - now apply metadataPath_not_bin in E. }
  assert (read_meta st' uploadId = Some m) as Hm'
    by (unfold read_meta; now rewrite Hside).
  assert (files st' !! uploadId = Some row) as Hrow'.
  { destruct (cleanup_tables now st uploadId) as [_ Hfiles].
    fold st' in Hfiles. now rewrite Hfiles. }
  split; [unfold stored_bytes; now rewrite Hblob|].
  split; [assumption|]. split; [assumption|].
  split.
  - rewrite (HEAD_session uploadId [] m) by assumption. split; reflexivity.
  - rewrite (PATCH_accepted true _ _ _ m) by assumption. cbv zeta.
    rewrite andb_false_r, Hrow', byteLength_pos by assumption.
    split; [reflexivity|]. split.
    + unfold stored_bytes. cbn [fs].
      rewrite lookup_insert_ne by apply metadataPath_filePath.
      now rewrite lookup_insert_eq, Hblob.
    + now rewrite read_meta_written.
Qed.

Lemma cleanup_leaves_side_record_witness :
  let req := Example.append (Some "6") Example.four in
  let st' := cleanupExpiredTransfers 200 Example.at6 in
  stored_bytes st' "u1" = None
  /\ read_meta st' "u1" = Some (Example.meta_u1 6)
  /\ files st' !! "u1" = Some (Example.row_u1 10 6 false)
  /\ (let r := fst (HEAD (Some ["u1"]) st') in
      status r = 200
      /\ header "Upload-Offset" r = Some (String_ (meta.offset (Example.meta_u1 6))))
  /\ (let '(r, st2) := PATCH true req (Some ["u1"]) st' in
      status r = 204
      /\ stored_bytes st2 "u1" = Some (payload req)
      /\ meta.offset <$> read_meta st2 "u1"
         = Some (meta.offset (Example.meta_u1 6) + byteLength (payload req))).
Proof.
  apply (cleanup_leaves_side_record 200 Example.at6 "u1" (Example.meta_u1 6)
           (Example.row_u1 10 6 false) (Transfer.mk 100 "pending")
           (Example.append (Some "6") Example.four)).
  - discriminate.
  - vm_compute. reflexivity.
  - vm_compute. reflexivity.
  - reflexivity.
  - vm_compute. reflexivity.
  - reflexivity.
  - intros id r Hr.
    assert (files Example.at6 = {[ "u1" := Example.row_u1 10 6 false ]}) as E
      by (vm_compute; reflexivity).
    rewrite E in Hr. apply lookup_singleton_Some in Hr as [_ <-]. discriminate.
  - vm_compute. reflexivity.
  - discriminate.
Defined.

Lemma client_error_writes_nothing_witness :
  let '(r, st') :=
    step Example.base64
      (OpPATCH true (Example.append (Some "3") Example.four) Example.u1)
      Example.at6 in
  In (status r) [200; 400; 404; 409] /\ st' = Example.at6.
Proof.
  pose proof (client_error_writes_nothing Example.base64
                (OpPATCH true (Example.append (Some "3") Example.four) Example.u1)
                Example.at6) as H.
  destruct (step Example.base64
              (OpPATCH true (Example.append (Some "3") Example.four) Example.u1)
              Example.at6) as [r st'] eqn:E.
  assert (In (status r) [200; 400; 404; 409]) as Hr
    by (vm_compute in E; injection E as <- <-;
        right; right; right; left; reflexivity).
  split; [exact Hr | exact (proj2 H Hr)].
Defined.
